(** * NFE101-open-data: the Velib cleaner and the Kafka-to-MySQL consumer

    A shallow embedding of [images/cleaner/clean.py] and
    [images/consumer/app.py], and the properties of the two programs.

    Python values are modelled by an inductive type, [str] by Rocq's
    byte strings holding UTF-8 text, [float] by the binary64 numbers of
    [SpecFloat], [dict] by an insertion-ordered association list (the
    cleaner iterates over its dictionaries) or by a [gmap] (the
    consumer only ever calls [get] on a decoded message), exceptions by
    a [result] type, and the MySQL table by the list of its rows. What
    the programs ask of the interpreter beyond that, [repr] of a float,
    the parsers of [datetime] and [json.loads], is taken through type
    classes, and so is universally quantified in every statement. *)

From Stdlib Require Import ZArith String Ascii List Bool Lia.
From Stdlib Require Import Floats.SpecFloat.
From stdpp Require Import base strings pretty gmap.
Import ListNotations.

Local Open Scope string_scope.
Local Open Scope list_scope.
Local Open Scope Z_scope.

(** ** Python builtins used by the two programs *)
Module Py.

(** *** Values and exceptions *)

(** The values that reach the functions under study: CSV cells are
    [str] or [None], the fields of a decoded JSON message are scalars. *)
Inductive pyval : Type :=
  | PNone
  | PBool (b : bool)
  | PInt (n : Z)
  | PFloat (f : spec_float)
  | PStr (s : string).

Inductive exn : Type :=
  | ValueError (message : string)
  | RuntimeError (message : string)
  | KeyError (key : string)
  | AttributeError
  | JSONDecodeError
  | DatabaseError.

Inductive result (A : Type) : Type :=
  | Ok (a : A)
  | Raise (e : exn).
Arguments Ok {A} a.
Arguments Raise {A} e.

(** Sequencing: an exception leaves the rest undone ([x ← r; k]). *)
#[global] Instance result_bind : MBind result := fun A B k r =>
  match r with
  | Ok a => k a
  | Raise e => Raise e
  end.

(** [x is None] *)
Definition is_none (v : pyval) : bool :=
  match v with PNone => true | _ => false end.

(** Truth value of an object, as tested by [not], [or] and [if]. *)
Definition float_is_zero (f : spec_float) : bool :=
  match f with S754_zero _ => true | _ => false end.

Definition truthy (v : pyval) : bool :=
  match v with
  | PNone => false
  | PBool b => b
  | PInt n => negb (n =? 0)
  | PFloat f => negb (float_is_zero f)
  | PStr s => negb (String.eqb s "")
  end.

(** [a or b] *)
Definition py_or (a b : pyval) : pyval := if truthy a then a else b.

(** *** [str] methods *)

Definition byte (c : ascii) : N := N_of_ascii c.

(** One-byte white space: U+0009..U+000D, U+001C..U+0020. *)
Definition space1 (a : ascii) : bool :=
  let n := byte a in
  ((9 <=? n) && (n <=? 13) || (28 <=? n) && (n <=? 32))%N.

(** Two-byte white space: U+0085 and U+00A0. *)
Definition space2 (a b : ascii) : bool :=
  ((byte a =? 194) && ((byte b =? 133) || (byte b =? 160)))%N.

(** Three-byte white space: U+1680, U+2000..U+200A, U+2028, U+2029,
    U+202F, U+205F and U+3000. *)
Definition space3 (a b c : ascii) : bool :=
  let '(x, y, z) := (byte a, byte b, byte c) in
  ((x =? 225) && (y =? 154) && (z =? 128)
   || (x =? 226) && (y =? 128)
      && ((128 <=? z) && (z <=? 138) || (z =? 168) || (z =? 169) || (z =? 175))
   || (x =? 226) && (y =? 129) && (z =? 159)
   || (x =? 227) && (y =? 128) && (z =? 128))%N.

(** Drops the white space at the head of [s]; with [back] the text is
    read from its end, so the bytes of a character come in reverse. *)
Fixpoint drop_spaces (back : bool) (s : list ascii) : list ascii :=
  match s with
  | [] => s
  | a :: r =>
      if space1 a then drop_spaces back r else
      match r with
      | b :: r2 =>
          if (if back then space2 b a else space2 a b) then drop_spaces back r2 else
          match r2 with
          | c :: r3 =>
              if (if back then space3 c b a else space3 a b c)
              then drop_spaces back r3 else s
          | [] => s
          end
      | [] => s
      end
  end.

(** Whether a white space character stands at the head of [s]. *)
Definition head_space (back : bool) (s : list ascii) : bool :=
  match s with
  | [] => false
  | a :: r =>
      space1 a ||
      match r with
      | [] => false
      | b :: r2 =>
          (if back then space2 b a else space2 a b) ||
          match r2 with
          | [] => false
          | c :: _ => if back then space3 c b a else space3 a b c
          end
      end
  end.

(** [s.strip()] *)
Definition strip (s : string) : string :=
  string_of_list_ascii
    (rev (drop_spaces true (rev (drop_spaces false (list_ascii_of_string s))))).

(** [s.lower()], on the ASCII letters and on the letters U+00C0..U+00DE
    of the Latin-1 supplement (two bytes, the first 195); the capitals
    of other scripts are left as they are. *)
Definition lower1 (a : ascii) : ascii :=
  let n := byte a in
  if ((65 <=? n) && (n <=? 90))%N then ascii_of_N (n + 32) else a.

Definition lower_latin1 (b : ascii) : ascii :=
  let n := byte b in
  if ((128 <=? n) && (n <=? 158) && negb (n =? 151))%N
  then ascii_of_N (n + 32) else b.

Fixpoint lower (s : string) : string :=
  match s with
  | EmptyString => EmptyString
  | String a r =>
      if (byte a =? 195)%N then
        match r with
        | String b r2 => String a (String (lower_latin1 b) (lower r2))
        | EmptyString => s
        end
      else String (lower1 a) (lower r)
  end.

(** [s.replace(old, new)] for a one-character [old]. *)
Fixpoint replace (old : ascii) (new : string) (s : string) : string :=
  match s with
  | EmptyString => EmptyString
  | String a r =>
      if Ascii.eqb a old then new +:+ replace old new r
      else String a (replace old new r)
  end.

(** *** Numeric literals *)

(** The value of a decimal digit; the digits are those of ASCII. *)
Definition digit (a : ascii) : option Z :=
  let n := byte a in
  if ((48 <=? n) && (n <=? 57))%N then Some (Z.of_N n - 48) else None.

(** Reads a [digitpart], digits with single underscores between them,
    at the head of [s]: the digits read and the rest of the string. *)
Fixpoint digitpart (after_digit : bool) (s : string) : list Z * string :=
  match s with
  | EmptyString => ([], s)
  | String a r =>
      match digit a with
      | Some d => let '(ds, rest) := digitpart true r in (d :: ds, rest)
      | None =>
          if after_digit && Ascii.eqb a "_" then
            match r with
            | String b _ =>
                match digit b with
                | Some _ => digitpart false r
                | None => ([], s)
                end
            | EmptyString => ([], s)
            end
          else ([], s)
      end
  end.

Definition decimal (ds : list Z) : Z :=
  fold_left (fun acc d => 10 * acc + d) ds 0.

(** An optional sign at the head of [s]: whether it is a minus. *)
Definition sign (s : string) : bool * string :=
  match s with
  | String "+" r => (false, r)
  | String "-" r => (true, r)
  | _ => (false, s)
  end.

(** [int(s)] for a string: [None] stands for [ValueError]. *)
Definition int_of_str (s : string) : option Z :=
  let '(neg, body) := sign (strip s) in
  match digitpart false body with
  | (d :: ds, EmptyString) =>
      let n := decimal (d :: ds) in Some (if neg then - n else n)
  | _ => None
  end.

(** *** Floating point numbers: binary64 *)

Definition prec : Z := 53.
Definition emax : Z := 1024.

(** The binary64 number nearest to [m * 10 ^ e], ties to even. *)
Definition float_of_decimal (neg : bool) (m : Z) (e : Z) : spec_float :=
  if m =? 0 then S754_zero neg
  else if 0 <=? e then
    binary_normalize prec emax (cond_Zopp neg (m * 10 ^ e)) 0 neg
  else
    let '(q, e', l) := SFdiv_core_binary prec emax m 0 (10 ^ (- e)) 0 in
    binary_round_aux prec emax neg q e' l.

(** The exponent of a float literal: [None] when it is ill-formed. *)
Definition exponent (s : string) : option Z :=
  match s with
  | EmptyString => Some 0
  | String a r =>
      if Ascii.eqb a "e" || Ascii.eqb a "E" then
        let '(neg, body) := sign r in
        match digitpart false body with
        | (d :: ds, EmptyString) =>
            let n := decimal (d :: ds) in Some (if neg then - n else n)
        | _ => None
        end
      else None
  end.

(** [float(s)] for a string: [None] stands for [ValueError]. *)
Definition float_of_str (s : string) : option spec_float :=
  let '(neg, body) := sign (strip s) in
  let word := lower body in
  if String.eqb word "inf" || String.eqb word "infinity" then Some (S754_infinity neg)
  else if String.eqb word "nan" then Some S754_nan
  else
    let '(ip, r1) := digitpart false body in
    let '(fp, r2) :=
      match r1 with
      | String "." r => digitpart false r
      | _ => ([], r1)
      end in
    match ip ++ fp with
    | [] => None
    | ds =>
        match exponent r2 with
        | Some e => Some (float_of_decimal neg (decimal ds) (e - Z.of_nat (length fp)))
        | None => None
        end
    end.

(** [int(f)] for a float, truncating toward zero: [None] stands for the
    [ValueError] of a NaN and the [OverflowError] of an infinity. *)
Definition int_of_float (f : spec_float) : option Z :=
  match f with
  | S754_zero _ => Some 0
  | S754_finite s m e =>
      let v := if 0 <=? e then Z.pos m * 2 ^ e else Z.shiftr (Z.pos m) (- e) in
      Some (if s then - v else v)
  | S754_infinity _ | S754_nan => None
  end.

(** [int(x)]: [None] stands for any exception. *)
Definition int_of (x : pyval) : option Z :=
  match x with
  | PNone => None
  | PBool b => Some (if b then 1 else 0)
  | PInt n => Some n
  | PFloat f => int_of_float f
  | PStr s => int_of_str s
  end.

(** [str(x)]. The shortest-digits text of a float is the interpreter's
    own algorithm: it is taken as given. *)
Class Builtins := { float_repr : spec_float -> string }.

Definition str `{!Builtins} (x : pyval) : string :=
  match x with
  | PNone => "None"
  | PBool b => if b then "True" else "False"
  | PInt n => pretty n
  | PFloat f => float_repr f
  | PStr s => s
  end.

(** [try: return int(...) except: return None] *)
Definition int_or_none (r : option Z) : pyval := from_option PInt PNone r.

(** *** Dictionaries in insertion order *)

Section Dict.
Context {K V : Type} `{EqDecision K}.

Definition dict : Type := list (K * V).

(** [d.get(k)] *)
Fixpoint dict_get (d : dict) (k : K) : option V :=
  match d with
  | [] => None
  | (k', v) :: d' => if decide (k' = k) then Some v else dict_get d' k
  end.

(** [d[k] = v]: a key already present keeps its place. *)
Fixpoint dict_set (d : dict) (k : K) (v : V) : dict :=
  match d with
  | [] => [(k, v)]
  | (k', v') :: d' =>
      if decide (k' = k) then (k', v) :: d' else (k', v') :: dict_set d' k v
  end.

(** [d.keys()] *)
Definition dict_keys (d : dict) : list K := map fst d.

(** [dict(pairs)] *)
Definition dict_of (pairs : list (K * V)) : dict :=
  fold_left (fun d kv => dict_set d (fst kv) (snd kv)) pairs [].
End Dict.
Arguments dict K V : clear implicits.

(** [d.get(k)] on a dictionary of values: [None] for a missing key. *)
Definition get (d : dict string pyval) (k : string) : pyval :=
  default PNone (dict_get d k).

(** *** [datetime] and [json] *)

(** A [datetime] object; [tzinfo] is the offset from UTC of an aware
    one, and [None] for a naive one. *)
Record datetime : Type := {
  year : Z; month : Z; day : Z;
  hour : Z; minute : Z; second : Z; microsecond : Z;
  tzinfo : option Z;
}.

#[global] Instance datetime_eq_dec : EqDecision datetime.
Proof. solve_decision. Defined.

(** [dt.replace(tzinfo=tz)] *)
Definition replace_tzinfo (dt : datetime) (tz : option Z) : datetime :=
  {| year := year dt; month := month dt; day := day dt;
     hour := hour dt; minute := minute dt; second := second dt;
     microsecond := microsecond dt; tzinfo := tz |}.

(** The two parsers of the [datetime] class: [None] stands for the
    exception of a text that does not match. *)
Class Datetime := {
  fromisoformat : string -> option datetime;
  strptime : string -> string -> option datetime;
}.

(** A decoded JSON document: an object, whose members are taken to be
    scalars, or anything else. *)
Inductive json : Type :=
  | JObject (members : gmap string pyval)
  | JOther.

(** [json.loads]: [None] stands for [JSONDecodeError]. *)
Class Json := { loads : string -> option json }.

End Py.

(** ** The cleaner: [images/cleaner/clean.py] *)
Module Cleaner.
Import Py.

Section Cleaner.
Context `{!Builtins}.

Definition norm (s : string) : string :=
  replace " "%char "_" (lower (strip s)).

Definition to_int (x : pyval) : pyval :=
  if is_none x then PNone else
  let x := strip (str x) in
  if String.eqb x "" then PNone else
  int_or_none (float_of_str x ≫= int_of_float).

Definition to_bool01_fr (x : pyval) : pyval :=
  if is_none x then PNone else
  let s := lower (strip (str x)) in
  if String.eqb s "" then PNone
  else if existsb (String.eqb s) ["oui"; "true"; "1"; "vrai"] then PInt 1
  else if existsb (String.eqb s) ["non"; "false"; "0"; "faux"] then PInt 0
  else PNone.

(** *** [csv.DictReader] with its default [restkey] and [restval] *)

(** A row as the reader yields it: the columns under their headers, and
    under the key [None] the values in excess of the headers, if any. *)
Record DictRow : Type := {
  named : dict string pyval;
  restkey : option (list string);
}.

Definition DictReader_next (fieldnames row : list string) : DictRow :=
  let d := dict_of (combine fieldnames (map PStr row)) in
  let lf := length fieldnames in
  let lr := length row in
  if (lf <? lr)%nat then {| named := d; restkey := Some (skipn lf row) |}
  else if (lr <? lf)%nat then
    {| named := fold_left (fun d key => dict_set d key PNone) (skipn lr fieldnames) d;
       restkey := None |}
  else {| named := d; restkey := None |}.

(** The rows of the file after its first line: empty lines are passed over. *)
Definition DictReader (fieldnames : list string) (lines : list (list string))
  : list DictRow :=
  map (DictReader_next fieldnames)
      (List.filter (fun row => negb (Nat.eqb (length row) 0)) lines).

(** *** [csv.DictWriter] with its default [restval] and [extrasaction] *)

Definition dict_to_list (fieldnames : list string) (rowdict : dict string pyval)
  : result (list pyval) :=
  let wrong_fields :=
    List.filter (fun k => negb (existsb (String.eqb k) fieldnames)) (dict_keys rowdict) in
  match wrong_fields with
  | [] => Ok (map (fun key => default (PStr "") (dict_get rowdict key)) fieldnames)
  | _ :: _ => Raise (ValueError "dict contains fields not in fieldnames")
  end.

(** *** [main] *)

(** The loop over [row.items()]: the entry under the key [None] is
    passed over, every other key is renamed through [mapping]. *)
Definition rename_keys (mapping : dict string string) (row : DictRow)
  : result (dict string pyval) :=
  fold_left
    (fun acc kv =>
       r ← acc;
       match dict_get mapping (fst kv) with
       | None => Raise (KeyError (fst kv))
       | Some k =>
           Ok (dict_set r k
                 (match snd kv with PStr v => PStr (strip v) | v => v end))
       end)
    (named row) (Ok []).

(** The body of the loop over the rows once [r] is built: [None] when
    the row is passed over. *)
Definition clean (r : dict string pyval) : option (dict string pyval) :=
  let station_code := get r "identifiant_station" in
  let station_name := get r "nom_station" in
  let due_date :=
    py_or (get r "actualisation_de_la_donnée") (get r "actualisation_de_la_donnee") in
  if negb (truthy station_code) || negb (truthy due_date) then None
  else Some
    [ ("station_code", PStr (strip (str station_code)));
      ("name", station_name);
      ("is_installed", to_bool01_fr (get r "station_en_fonctionnement"));
      ("capacity",
        to_int (py_or (get r "capacité_de_la_station") (get r "capacite_de_la_station")));
      ("numdocksavailable", to_int (get r "nombre_bornettes_libres"));
      ("numbikesavailable",
        to_int (py_or (get r "nombre_total_vélos_disponibles")
                      (get r "nombre_total_velos_disponibles")));
      ("mechanical",
        to_int (py_or (get r "vélos_mécaniques_disponibles")
                      (get r "velos_mecaniques_disponibles")));
      ("ebike",
        to_int (py_or (get r "vélos_électriques_disponibles")
                      (get r "velos_electriques_disponibles")));
      ("is_returning",
        to_bool01_fr (py_or (get r "retour_vélib_possible") (get r "retour_velib_possible")));
      ("due_date", PStr (strip (str due_date)));
      ("commune",
        py_or (get r "nom_communes_équipées") (get r "nom_communes_equipees"));
      ("code_insee",
        py_or (get r "code_insee_communes_équipées") (get r "code_insee_communes_equipees"));
      ("geo",
        py_or (get r "coordonnées_géographiques") (get r "coordonnees_geographiques")) ].

Definition clean_row (mapping : dict string string) (row : DictRow)
  : result (option (dict string pyval)) :=
  r ← rename_keys mapping row; Ok (clean r).

(** The loop over the rows: [cleaned_rows] in the order of the file. *)
Fixpoint clean_rows (mapping : dict string string) (rows : list DictRow)
  : result (list (dict string pyval)) :=
  match rows with
  | [] => Ok []
  | row :: rest =>
      out ← clean_row mapping row;
      cleaned ← clean_rows mapping rest;
      Ok (match out with Some o => o :: cleaned | None => cleaned end)
  end.

(** What [main] writes: the lines of the cleaned CSV, its header first,
    and the records of the JSONL file. *)
Record Output : Type := {
  csv_header : list string;
  csv_lines : list (list pyval);
  jsonl : list (dict string pyval);
}.

Fixpoint writerows (fields : list string) (rows : list (dict string pyval))
  : result (list (list pyval)) :=
  match rows with
  | [] => Ok []
  | row :: rest =>
      line ← dict_to_list fields row;
      lines ← writerows fields rest;
      Ok (line :: lines)
  end.

(** [mapping]: every header with its normalised name. *)
Definition header_mapping (raw_fields : list string) : dict string string :=
  dict_of (map (fun c => (c, norm c)) raw_fields).

(** [main] once the raw file is there, on its lines as [csv.reader]
    splits them. *)
Definition main (raw : list (list string)) : result Output :=
  let raw_fields := match raw with [] => [] | header :: _ => header end in
  let mapping := header_mapping raw_fields in
  cleaned_rows ← clean_rows mapping (DictReader raw_fields (tl raw));
  match cleaned_rows with
  | [] => Raise (RuntimeError "Aucune ligne nettoyée (vérifie les noms de colonnes / parsing).")
  | first :: _ =>
      let fields := dict_keys first in
      lines ← writerows fields cleaned_rows;
      Ok {| csv_header := fields; csv_lines := lines; jsonl := cleaned_rows |}
  end.

(** The dictionary [r] built for a line of the file under the headers
    [fieldnames]. *)
Definition renamed (fieldnames line : list string) : dict string pyval :=
  match rename_keys (header_mapping fieldnames) (DictReader_next fieldnames line) with
  | Ok r => r
  | Raise _ => []
  end.

End Cleaner.

(** The keys of the dictionary [out], in the order of the literal. *)
Definition canonical_fields : list string :=
  [ "station_code"; "name"; "is_installed"; "capacity"; "numdocksavailable";
    "numbikesavailable"; "mechanical"; "ebike"; "is_returning"; "due_date";
    "commune"; "code_insee"; "geo" ].

(** The file of the scenario: one header line and one station. *)
Definition scenario : list (list string) :=
  [ [ "Nom Station"; "Identifiant station"; "Capacité de la Station";
      "Station en fonctionnement"; "Actualisation de la donnée" ];
    [ "Gare"; "101"; "20.0"; "OUI"; "2026-01-22 10:00:00" ] ].

(** A value read from the file: a text or [None]. *)
Definition is_cell (v : pyval) : Prop :=
  match v with PStr _ | PNone => True | _ => False end.

Definition cells (d : dict string pyval) : Prop :=
  Forall (fun kv => is_cell (snd kv)) d.

(** A value of the dictionary [r]: a text without white space around
    it, or [None]. *)
Definition is_stripped (v : pyval) : Prop :=
  match v with PStr s => strip s = s | PNone => True | _ => False end.

Definition stripped_cells (d : dict string pyval) : Prop :=
  Forall (fun kv => is_stripped (snd kv)) d.

(** A text that is not empty. *)
Definition nonempty_text (v : pyval) : Prop :=
  exists s, v = PStr s /\ s <> "".

End Cleaner.

(** ** The consumer: [images/consumer/app.py] *)
Module Consumer.
Import Py.

(** A row of the table [velib_status], in the order of its columns. *)
Record Row : Type := {
  station_code : string;
  station_name : pyval;
  commune : pyval;
  capacity : pyval;
  docks_available : pyval;
  bikes_available : pyval;
  bikes_mechanical : pyval;
  bikes_ebike : pyval;
  is_installed : pyval;
  is_returning : pyval;
  due_date : datetime;
  code_insee : string;
  geo : string;
}.

(** [PRIMARY KEY (station_code, due_date)]; two keys are the same when
    their values are equal, whatever the collation of the column. *)
Definition primary_key (r : Row) : string * datetime := (station_code r, due_date r).

Definition pk_unique (table : list Row) : Prop := List.NoDup (map primary_key table).

(** [ON DUPLICATE KEY UPDATE]: the stored row [old] takes every column
    listed in the clause from the proposed row [new]. *)
Definition on_duplicate_key_update (old new : Row) : Row :=
  {| station_code := station_code old;
     station_name := station_name new;
     commune := commune new;
     capacity := capacity new;
     docks_available := docks_available new;
     bikes_available := bikes_available new;
     bikes_mechanical := bikes_mechanical new;
     bikes_ebike := bikes_ebike new;
     is_installed := is_installed new;
     is_returning := is_returning new;
     due_date := due_date old;
     code_insee := code_insee new;
     geo := geo new |}.

(** [INSERT INTO velib_status ... ON DUPLICATE KEY UPDATE ...] *)
Fixpoint upsert (table : list Row) (new : Row) : list Row :=
  match table with
  | [] => [new]
  | old :: rest =>
      if decide (primary_key old = primary_key new)
      then on_duplicate_key_update old new :: rest
      else old :: upsert rest new
  end.

(** The rows stored under a key. *)
Definition rows_with (key : string * datetime) (table : list Row) : list Row :=
  List.filter (fun r => bool_decide (primary_key r = key)) table.

(** [cur.execute(sql, values); conn.commit()]: the store either
    acknowledges the write or fails and keeps its rows. *)
Definition execute (ack : bool) (table : list Row) (values : Row) : result (list Row) :=
  if ack then Ok (upsert table values) else Raise DatabaseError.

(** [msg.get(key)] *)
Definition msg_get (msg : gmap string pyval) (key : string) : pyval :=
  default PNone (msg !! key).

Definition to_int_or_none (x : pyval) : pyval :=
  if is_none x then PNone else int_or_none (int_of x).

(** *** Resolving a field through its aliases *)






Section Consumer.
Context `{!Builtins} `{!Datetime}.

(** The loop over the two formats of [parse_due_date]. *)
Fixpoint try_formats (s : string) (formats : list string) : option datetime :=
  match formats with
  | [] => None
  | fmt :: rest =>
      match strptime s fmt with
      | Some dt => Some dt
      | None => try_formats s rest
      end
  end.

Definition parse_due_date (value : pyval) : option datetime :=
  if is_none value then None else
  let s := strip (str value) in
  let s := replace "Z"%char "+00:00" s in
  match fromisoformat s with
  | Some dt => Some (replace_tzinfo dt None)
  | None => try_formats s ["%Y-%m-%d %H:%M:%S"; "%Y-%m-%d %H:%M"]
  end.

(** The first part of [insert_row]: the values bound to the statement. *)
Definition row_values (msg : gmap string pyval) : result Row :=
  let get := msg_get msg in
  let station_code :=
    strip (str (py_or (py_or (py_or (get "station_code") (get "stationcode"))
                             (get "stationCode")) (PStr ""))) in
  if String.eqb station_code "" then Raise (ValueError "station_code manquant") else
  match parse_due_date (py_or (py_or (get "due_date") (get "duedate")) (get "last_reported")) with
  | None => Raise (ValueError "due_date/duedate manquant ou illisible")
  | Some due_date =>
      let station_name := py_or (get "name") (get "station_name") in
      let commune := py_or (get "nom_arrondissement_communes") (get "commune") in
      let capacity := to_int_or_none (get "capacity") in
      let docks_available :=
        to_int_or_none (py_or (get "numdocksavailable") (get "docks_available")) in
      let bikes_available :=
        to_int_or_none (py_or (get "numbikesavailable") (get "bikes_available")) in
      let bikes_mechanical :=
        to_int_or_none (py_or (get "mechanical") (get "bikes_mechanical")) in
      let bikes_ebike := to_int_or_none (py_or (get "ebike") (get "bikes_ebike")) in
      let is_installed := to_int_or_none (get "is_installed") in
      let is_returning := to_int_or_none (get "is_returning") in
      let code_insee :=
        strip (str (py_or (py_or (py_or (get "code_insee") (get "codeinsee"))
                                 (get "code-insee")) (PStr ""))) in
      if String.eqb code_insee "" then Raise (ValueError "code_insee manquant") else
      let geo := strip (str (py_or (get "geo") (PStr ""))) in
      if String.eqb geo "" then Raise (ValueError "geo manquant") else
      Ok {| station_code := station_code; station_name := station_name;
            commune := commune; capacity := capacity;
            docks_available := docks_available;
            bikes_available := bikes_available;
            bikes_mechanical := bikes_mechanical; bikes_ebike := bikes_ebike;
            is_installed := is_installed; is_returning := is_returning;
            due_date := due_date; code_insee := code_insee; geo := geo |}
  end.

(** The values [insert_row] resolves for the four fields it requires. *)
Definition station_code_text (msg : gmap string pyval) : string :=
  strip (str (py_or (py_or (py_or (msg_get msg "station_code") (msg_get msg "stationcode"))
                           (msg_get msg "stationCode")) (PStr ""))).

Definition due_date_value (msg : gmap string pyval) : pyval :=
  py_or (py_or (msg_get msg "due_date") (msg_get msg "duedate"))
        (msg_get msg "last_reported").

Definition code_insee_text (msg : gmap string pyval) : string :=
  strip (str (py_or (py_or (py_or (msg_get msg "code_insee") (msg_get msg "codeinsee"))
                           (msg_get msg "code-insee")) (PStr ""))).

Definition geo_text (msg : gmap string pyval) : string :=
  strip (str (py_or (msg_get msg "geo") (PStr ""))).

(** The four messages of [ValueError] that [insert_row] raises. *)
Definition validation_errors : list exn :=
  [ ValueError "station_code manquant";
    ValueError "due_date/duedate manquant ou illisible";
    ValueError "code_insee manquant";
    ValueError "geo manquant" ].

(** [insert_row(conn, msg)]: the rows of the table behind [conn] after
    the call, or the exception raised. *)
Definition insert_row (ack : bool) (conn : list Row) (msg : gmap string pyval)
  : result (list Row) :=
  values ← row_values msg; execute ack conn values.

(** *** [main]: the loop over the records of the topic *)

(** A record as [KafkaConsumer] yields it, its value decoded to text. *)
Record ConsumerRecord : Type := { offset : Z; value : string }.

(** One turn of the loop: the record received, and whether the store
    acknowledges a write attempted during this turn. *)
Record Turn : Type := { record : ConsumerRecord; store_ack : bool }.

Inductive Line : Type :=
  | Insere (station : pyval) (at_offset : Z)
  | Erreur (at_offset : Z) (e : exn) (valeur : string).

(** What the loop does to the outside, in the order it does it. *)
Inductive Event : Type :=
  | Stored (at_offset : Z)
  | Committed (position : Z)
  | Printed (line : Line).

(** The store, the offset committed for the group (the next record to
    be read after a restart), and the events so far. *)
Record World : Type := {
  table : list Row;
  committed : option Z;
  trace : list Event;
}.

Context `{!Json}.

(** The two statements of the [try] block before [consumer.commit()]. *)
Definition process (ack : bool) (conn : list Row) (value : string)
  : result (gmap string pyval * list Row) :=
  match loads value with
  | None => Raise JSONDecodeError
  | Some JOther => Raise AttributeError
  | Some (JObject payload) =>
      conn' ← insert_row ack conn payload; Ok (payload, conn')
  end.

(** The body of [for record in consumer]. [consumer.commit()] commits
    the position of the consumer, one past the record just yielded; the
    broker is taken to accept it. *)
Definition loop_body (w : World) (t : Turn) : World :=
  let r := record t in
  match process (store_ack t) (table w) (value r) with
  | Ok (payload, conn') =>
      {| table := conn';
         committed := Some (offset r + 1);
         trace := trace w ++
           [ Stored (offset r);
             Committed (offset r + 1);
             Printed (Insere (py_or (msg_get payload "station_code")
                                    (msg_get payload "stationcode")) (offset r)) ] |}
  | Raise e =>
      {| table := table w;
         committed := committed w;
         trace := trace w ++ [Printed (Erreur (offset r) e (value r))] |}
  end.

Definition loop (w : World) (turns : list Turn) : World :=
  fold_left loop_body turns w.

End Consumer.
End Consumer.

(** ** A reference interpreter for the examples

    The text of a float, the parsers of [datetime] and the decoder of
    [json] are parameters of the development. The instances below fix
    them, so that the programs run on concrete inputs: the shortest
    digits that read back as the same float; ISO 8601 texts of the
    shape [YYYY-MM-DD], then optionally a separator and [HH:MM], [:SS],
    a fraction of three or six digits and an offset [+HH:MM]; the
    directives [%Y %m %d %H %M %S] of [strptime]; and the JSON
    documents made of one value, one array of values or one object of
    values, where a value is a string without [\u], a number, [true],
    [false] or [null]. *)
Module Reference.
Import Py.

(** *** [repr] of a float *)

(** The canonical form of the positive float [m * 2 ^ e]. *)
Definition canonical (m : positive) (e : Z) : spec_float :=
  binary_normalize prec emax (Z.pos m) e false.

Definition same_float (x y : spec_float) : bool :=
  match x, y with
  | S754_finite s m e, S754_finite s' m' e' =>
      Bool.eqb s s' && (m =? m')%positive && (e =? e')
  | S754_zero s, S754_zero s' | S754_infinity s, S754_infinity s' => Bool.eqb s s'
  | S754_nan, S754_nan => true
  | _, _ => false
  end.

(** [m * 2 ^ e] as a fraction. *)
Definition fraction (m : positive) (e : Z) : Z * Z :=
  if 0 <=? e then (Z.pos m * 2 ^ e, 1) else (Z.pos m, 2 ^ (- e)).

(** The integer part of [x / 10 ^ q]. *)
Definition scaled (x : Z * Z) (q : Z) : Z :=
  if 0 <=? q then fst x / (snd x * 10 ^ q) else (fst x * 10 ^ (- q)) / snd x.

(** The exponent [k] of the leading digit: [10 ^ k <= x < 10 ^ (k + 1)]. *)
Definition leading_exponent (m : positive) (e : Z) : Z :=
  let x := fraction m e in
  let k0 := (Z.log2 (Z.pos m) + e) * 30103 / 100000 in
  if 1 <=? scaled x (k0 + 1) then k0 + 1
  else if 1 <=? scaled x k0 then k0 else k0 - 1.

(** Drops the zeros at the end of the digits [d], which end at [10 ^ q]. *)
Fixpoint trim_zeros (fuel : nat) (d q : Z) : Z * Z :=
  match fuel with
  | O => (d, q)
  | S fuel => if (d mod 10 =? 0) && negb (d =? 0) then trim_zeros fuel (d / 10) (q + 1) else (d, q)
  end.

(** The shortest digits that read back as [x = m * 2 ^ e], nearest to
    [x] among those of that length: [(d, q)] for [d * 10 ^ q]. *)
Fixpoint shortest (fuel : nat) (n : Z) (m : positive) (e : Z) : Z * Z :=
  let x := fraction m e in
  let q := leading_exponent m e - n + 1 in
  let lo := scaled x q in
  let hi := lo + 1 in
  let reads d := same_float (float_of_decimal false d q) (canonical m e) in
  (* twice [x] against [lo + hi], both in units of [10 ^ q] *)
  let lo_nearer :=
    if 0 <=? q then 2 * fst x <=? (lo + hi) * (snd x * 10 ^ q)
    else 2 * fst x * 10 ^ (- q) <=? (lo + hi) * snd x in
  match fuel with
  | O => (lo, q)
  | S fuel =>
      match reads lo, reads hi with
      | true, true => if lo_nearer then (lo, q) else (hi, q)
      | true, false => (lo, q)
      | false, true => (hi, q)
      | false, false => shortest fuel (n + 1) m e
      end
  end.

Definition zeros (n : Z) : string := string_of_list_ascii (repeat "0"%char (Z.to_nat n)).

Definition float_repr (x : spec_float) : string :=
  match x with
  | S754_nan => "nan"
  | S754_infinity s => if s then "-inf" else "inf"
  | S754_zero s => if s then "-0.0" else "0.0"
  | S754_finite s m e =>
      let '(d, q) := shortest 17 1 m e in
      let '(d, q) := trim_zeros 17 d q in
      let ds := pretty d in
      let n := Z.of_nat (String.length ds) in
      let decpt := q + n in
      let body :=
        if (-4 <? decpt) && (decpt <=? 16) then
          if decpt <=? 0 then "0." +:+ zeros (- decpt) +:+ ds
          else if n <=? decpt then ds +:+ zeros (decpt - n) +:+ ".0"
          else substring 0 (Z.to_nat decpt) ds +:+ "." +:+
               substring (Z.to_nat decpt) (Z.to_nat (n - decpt)) ds
        else
          let x := decpt - 1 in
          let ex := pretty (Z.abs x) in
          substring 0 1 ds +:+
          (if 1 <? n then "." +:+ substring 1 (Z.to_nat (n - 1)) ds else "") +:+
          "e" +:+ (if x <? 0 then "-" else "+") +:+
          (if Z.abs x <? 10 then "0" else "") +:+ ex in
      if s then "-" +:+ body else body
  end.

#[global] Instance builtins : Builtins := {| Py.float_repr := float_repr |}.

(** *** The parsers of [datetime] *)

(** Exactly [n] digits at the head of [s]: their value and the rest. *)
Fixpoint digits (n : nat) (s : string) (acc : Z) : option (Z * string) :=
  match n with
  | O => Some (acc, s)
  | S n =>
      match s with
      | String a r =>
          match digit a with
          | Some d => digits n r (10 * acc + d)
          | None => None
          end
      | EmptyString => None
      end
  end.

(** One or two digits at the head of [s], as many as there are. *)
Definition digits12 (s : string) : option (Z * string) :=
  match digits 2 s 0 with
  | Some r => Some r
  | None => digits 1 s 0
  end.

Definition leap (y : Z) : bool :=
  (y mod 4 =? 0) && (negb (y mod 100 =? 0) || (y mod 400 =? 0)).

Definition days_in_month (y m : Z) : Z :=
  if m =? 2 then (if leap y then 29 else 28)
  else if (m =? 4) || (m =? 6) || (m =? 9) || (m =? 11) then 30 else 31.

(** The checks of the [datetime] constructor. *)
Definition valid (dt : datetime) : bool :=
  (1 <=? year dt) && (year dt <=? 9999) &&
  (1 <=? month dt) && (month dt <=? 12) &&
  (1 <=? day dt) && (day dt <=? days_in_month (year dt) (month dt)) &&
  (0 <=? hour dt) && (hour dt <=? 23) &&
  (0 <=? minute dt) && (minute dt <=? 59) &&
  (0 <=? second dt) && (second dt <=? 59) &&
  (0 <=? microsecond dt) && (microsecond dt <=? 999999).

Definition checked (dt : datetime) : option datetime :=
  if valid dt then Some dt else None.

Definition expect (c : ascii) (s : string) : option string :=
  match s with
  | String a r => if Ascii.eqb a c then Some r else None
  | EmptyString => None
  end.

(** [+HH:MM] or [-HH:MM] up to the end of the text: the offset in seconds. *)
Definition utc_offset (s : string) : option Z :=
  let '(neg, body) := sign s in
  '(h, r) ← digits 2 body 0;
  r ← expect ":" r;
  '(m, r) ← digits 2 r 0;
  if String.eqb r "" && (h <=? 23) && (m <=? 59)
  then Some ((if neg then -1 else 1) * (h * 3600 + m * 60)) else None.

(** What may follow the minutes: seconds, a fraction, an offset. *)
Definition time_tail (s : string) : option (Z * Z * option Z) :=
  let tz (r : string) : option (option Z) :=
    match r with
    | EmptyString => Some None
    | String a _ =>
        if Ascii.eqb a "+" || Ascii.eqb a "-" then Some <$> utc_offset r else None
    end in
  match s with
  | String ":" r =>
      '(sec, r) ← digits 2 r 0;
      match r with
      | String "." r' =>
          match digits 6 r' 0 with
          | Some (us, r'') => z ← tz r''; Some (sec, us, z)
          | None =>
              '(ms, r'') ← digits 3 r' 0; z ← tz r''; Some (sec, ms * 1000, z)
          end
      | _ => z ← tz r; Some (sec, 0, z)
      end
  | _ => z ← tz s; Some (0, 0, z)
  end.

Definition fromisoformat (s : string) : option datetime :=
  '(y, r) ← digits 4 s 0;
  r ← expect "-" r;
  '(mo, r) ← digits 2 r 0;
  r ← expect "-" r;
  '(d, r) ← digits 2 r 0;
  match r with
  | EmptyString =>
      checked {| year := y; month := mo; day := d; hour := 0; minute := 0;
                 second := 0; microsecond := 0; tzinfo := None |}
  | String _ r =>
      '(h, r) ← digits 2 r 0;
      r ← expect ":" r;
      '(mi, r) ← digits 2 r 0;
      '(sec, us, tz) ← time_tail r;
      checked {| year := y; month := mo; day := d; hour := h; minute := mi;
                 second := sec; microsecond := us; tzinfo := tz |}
  end.

(** [strptime]: a directive reads a number, a space of the format
    stands for white space, any other character for itself. *)
Definition set_field (c : ascii) (v : Z) (dt : datetime) : option datetime :=
  let '(Build_datetime y mo d h mi sec us tz) := dt in
  if Ascii.eqb c "Y" then Some (Build_datetime v mo d h mi sec us tz)
  else if Ascii.eqb c "m" then Some (Build_datetime y v d h mi sec us tz)
  else if Ascii.eqb c "d" then Some (Build_datetime y mo v h mi sec us tz)
  else if Ascii.eqb c "H" then Some (Build_datetime y mo d v mi sec us tz)
  else if Ascii.eqb c "M" then Some (Build_datetime y mo d h v sec us tz)
  else if Ascii.eqb c "S" then Some (Build_datetime y mo d h mi v us tz)
  else None.

Definition skip_spaces (s : string) : option string :=
  match s with
  | String a r =>
      if space1 a
      then Some (string_of_list_ascii (drop_spaces false (list_ascii_of_string r)))
      else None
  | EmptyString => None
  end.

Fixpoint strptime_from (fmt s : string) (dt : datetime) : option datetime :=
  match fmt with
  | EmptyString => if String.eqb s "" then checked dt else None
  | String "%" (String c fmt') =>
      '(v, r) ← (if Ascii.eqb c "Y" then digits 4 s 0 else digits12 s);
      dt ← set_field c v dt;
      strptime_from fmt' r dt
  | String a fmt' =>
      r ← (if Ascii.eqb a " " then skip_spaces s else expect a s);
      strptime_from fmt' r dt
  end.

Definition strptime (s fmt : string) : option datetime :=
  strptime_from fmt s
    {| year := 1900; month := 1; day := 1; hour := 0; minute := 0;
       second := 0; microsecond := 0; tzinfo := None |}.

#[global] Instance datetime_class : Datetime :=
  {| Py.fromisoformat := fromisoformat; Py.strptime := strptime |}.

(** *** [json.loads], for documents without nesting *)

Definition quote : ascii := ascii_of_N 34.
Definition backslash : ascii := ascii_of_N 92.

Definition json_space (a : ascii) : bool :=
  let n := byte a in ((n =? 32) || (n =? 9) || (n =? 10) || (n =? 13))%N.

Fixpoint skip_ws (s : string) : string :=
  match s with
  | String a r => if json_space a then skip_ws r else s
  | EmptyString => s
  end.

(** The character that an escape stands for; [\u] is not read. *)
Definition unescape (a : ascii) : option ascii :=
  if Ascii.eqb a quote then Some quote
  else if Ascii.eqb a backslash then Some backslash
  else if Ascii.eqb a "/" then Some "/"%char
  else if Ascii.eqb a "b" then Some (ascii_of_N 8)
  else if Ascii.eqb a "f" then Some (ascii_of_N 12)
  else if Ascii.eqb a "n" then Some (ascii_of_N 10)
  else if Ascii.eqb a "r" then Some (ascii_of_N 13)
  else if Ascii.eqb a "t" then Some (ascii_of_N 9)
  else None.

(** A string after its opening quote: its text and what follows it. *)
Fixpoint string_body (s : string) : option (string * string) :=
  match s with
  | EmptyString => None
  | String a r =>
      if Ascii.eqb a quote then Some ("", r)
      else if Ascii.eqb a backslash then
        match r with
        | String b r' =>
            c ← unescape b; '(t, rest) ← string_body r'; Some (String c t, rest)
        | EmptyString => None
        end
      else if (byte a <? 32)%N then None
      else '(t, rest) ← string_body r; Some (String a t, rest)
  end.

Fixpoint plain_digits (s : string) : list Z * string :=
  match s with
  | String a r =>
      match digit a with
      | Some d => let '(ds, rest) := plain_digits r in (d :: ds, rest)
      | None => ([], s)
      end
  | EmptyString => ([], s)
  end.

Definition some_digits (s : string) : option (list Z * string) :=
  match plain_digits s with
  | ([], _) => None
  | r => Some r
  end.

(** A number: an [int] when it has no fraction and no exponent. *)
Definition number (s : string) : option (pyval * string) :=
  let '(neg, body) :=
    match s with String "-" r => (true, r) | _ => (false, s) end in
  '(ip, r1) ← some_digits body;
  match ip with
  | 0 :: _ :: _ => None
  | _ =>
      '(fp, r2) ← match r1 with
                  | String "." r => some_digits r
                  | _ => Some ([], r1)
                  end;
      '(ex, r3) ← match r2 with
                  | String a r =>
                      if Ascii.eqb a "e" || Ascii.eqb a "E" then
                        let '(eneg, r') :=
                          match r with
                          | String "-" r' => (true, r')
                          | String "+" r' => (false, r')
                          | _ => (false, r)
                          end in
                        '(ds, rest) ← some_digits r';
                        Some (Some (if eneg then - decimal ds else decimal ds), rest)
                      else Some (None, r2)
                  | EmptyString => Some (None, r2)
                  end;
      match fp, ex with
      | [], None => Some (PInt (if neg then - decimal ip else decimal ip), r3)
      | _, _ =>
          Some (PFloat (float_of_decimal neg (decimal (ip ++ fp))
                          (default 0 ex - Z.of_nat (length fp))), r3)
      end
  end.

Fixpoint after_prefix (p s : string) : option string :=
  match p with
  | EmptyString => Some s
  | String a p' =>
      match s with
      | String b s' => if Ascii.eqb a b then after_prefix p' s' else None
      | EmptyString => None
      end
  end.

(** A value that is not an array and not an object. *)
Definition scalar (s : string) : option (pyval * string) :=
  match s with
  | String a r =>
      if Ascii.eqb a quote then '(t, rest) ← string_body r; Some (PStr t, rest)
      else match after_prefix "true" s, after_prefix "false" s, after_prefix "null" s with
           | Some rest, _, _ => Some (PBool true, rest)
           | _, Some rest, _ => Some (PBool false, rest)
           | _, _, Some rest => Some (PNone, rest)
           | _, _, _ => number s
           end
  | EmptyString => None
  end.

(** The members of an object from its first key on; a key met again
    takes the later value. *)
Fixpoint members (fuel : nat) (s : string) (acc : gmap string pyval)
  : option (gmap string pyval * string) :=
  match fuel with
  | O => None
  | S fuel =>
      r ← expect quote s;
      '(key, r) ← string_body r;
      r ← expect ":" (skip_ws r);
      '(v, r) ← scalar (skip_ws r);
      match skip_ws r with
      | String "," r => members fuel (skip_ws r) (<[key := v]> acc)
      | String "}" r => Some (<[key := v]> acc, r)
      | _ => None
      end
  end.

(** The items of an array from its first one on. *)
Fixpoint items (fuel : nat) (s : string) : option string :=
  match fuel with
  | O => None
  | S fuel =>
      '(_, r) ← scalar s;
      match skip_ws r with
      | String "," r => items fuel (skip_ws r)
      | String "]" r => Some r
      | _ => None
      end
  end.

Definition ended (kind : json) (rest : string) : option json :=
  if String.eqb (skip_ws rest) "" then Some kind else None.

Definition loads (s : string) : option json :=
  let s := skip_ws s in
  let fuel := String.length s in
  match s with
  | String "{" r =>
      match skip_ws r with
      | String "}" rest => ended (JObject ∅) rest
      | r => '(m, rest) ← members fuel r ∅; ended (JObject m) rest
      end
  | String "[" r =>
      match skip_ws r with
      | String "]" rest => ended JOther rest
      | r => rest ← items fuel r; ended JOther rest
      end
  | _ => '(_, rest) ← scalar s; ended JOther rest
  end.

#[global] Instance json_class : Json := {| Py.loads := loads |}.

(** A text with [']  for the quotes of JSON. *)
Definition json_text (s : string) : string := replace "'"%char (String quote "") s.

End Reference.

(** ** The messages of the examples *)
Module Examples.
Import Py Consumer Reference.

Definition message (members : list (string * pyval)) : gmap string pyval :=
  list_to_map members.

Definition instant (h mi : Z) : datetime :=
  {| year := 2026; month := 1; day := 22; hour := h; minute := mi;
     second := 0; microsecond := 0; tzinfo := None |}.

(** A station under its historical keys, the date with a zone. *)
Definition msg_gare : gmap string pyval :=
  message [ ("stationcode", PStr "101"); ("duedate", PStr "2026-01-22T10:00:00Z");
            ("code_insee", PStr "75056"); ("geo", PStr "48.85,2.35") ].

Definition row_gare : Row :=
  {| station_code := "101"; station_name := PNone; commune := PNone;
     capacity := PNone; docks_available := PNone; bikes_available := PNone;
     bikes_mechanical := PNone; bikes_ebike := PNone;
     is_installed := PNone; is_returning := PNone;
     due_date := instant 10 0; code_insee := "75056"; geo := "48.85,2.35" |}.

(** The same station at the same instant, with more of its fields. *)
Definition msg_gare_full : gmap string pyval :=
  message [ ("station_code", PStr " 101 "); ("due_date", PStr "2026-01-22 10:00:00");
            ("name", PStr "Gare"); ("capacity", PInt 20);
            ("numdocksavailable", PStr "7"); ("is_installed", PInt 1);
            ("code_insee", PStr "75056"); ("geo", PStr "48.85,2.35") ].

Definition row_gare_full : Row :=
  {| station_code := "101"; station_name := PStr "Gare"; commune := PNone;
     capacity := PInt 20; docks_available := PInt 7; bikes_available := PNone;
     bikes_mechanical := PNone; bikes_ebike := PNone;
     is_installed := PInt 1; is_returning := PNone;
     due_date := instant 10 0; code_insee := "75056"; geo := "48.85,2.35" |}.



(** A station without its position, and one with a date that no
    format reads. *)
Definition msg_no_geo : gmap string pyval :=
  message [ ("stationcode", PStr "101"); ("duedate", PStr "2026-01-22T10:00:00Z");
            ("code_insee", PStr "75056") ].


(** The payloads of the records: the two stations above as JSON. *)
Definition payload_gare : string :=
  json_text "{'stationcode':'101','duedate':'2026-01-22T10:00:00Z','code_insee':'75056','geo':'48.85,2.35'}".

Definition payload_no_geo : string :=
  json_text "{'stationcode': '101', 'duedate': '2026-01-22T10:00:00Z', 'code_insee': '75056'}".

Definition empty_world : World := {| table := []; committed := None; trace := [] |}.

Definition turn (at_offset : Z) (payload : string) (ack : bool) : Turn :=
  {| record := {| offset := at_offset; value := payload |}; store_ack := ack |}.

End Examples.

(** ** The cleaner from the start: [download_if_needed] and the raw file *)
Module Download.
Import Py Cleaner.

(** What [urlretrieve] leaves at the path: the whole content, or an
    error of [urllib] and what was there or was written before it. *)
Inductive retrieval : Type :=
  | Retrieved (content : string)
  | Interrupted (reason : string) (remains : option string).

Class Urllib := { urlretrieve : string -> retrieval }.

(** [csv.reader] on the decoded text of a file; a file without a
    character has no line. *)
Class Csv := {
  reader : string -> list (list string);
  reader_empty : reader "" = [];
}.

(** The file at [RAW_PATH], if any, and the URLs retrieved so far. *)
Record Disk : Type := {
  raw_file : option string;
  retrieved : list string;
}.

(** How a call ends: with a value, with an exception of the program,
    or with the error of [urllib]. *)
Inductive outcome (A : Type) : Type :=
  | Returns (a : A)
  | Raises (e : exn)
  | URLError (reason : string).
Arguments Returns {A} a.
Arguments Raises {A} e.
Arguments URLError {A} reason.

(** [os.path.exists(RAW_PATH) and os.path.getsize(RAW_PATH) > 0] *)
Definition cached (d : Disk) : bool :=
  match raw_file d with
  | Some content => negb (String.eqb content "")
  | None => false
  end.

Section Download.
Context `{!Urllib}.

(** [RAW_URL] is what [os.getenv] gave: [None] when the variable is not
    set. The disk after the call, and how the call ends. *)
Definition download_if_needed (RAW_URL : option string) (d : Disk) : Disk * outcome unit :=
  if cached d then (d, Returns tt)
  else if negb (truthy (from_option PStr PNone RAW_URL))
  then (d, Raises (RuntimeError "RAW_URL manquant (variable d'environnement)."))
  else
    let url := default "" RAW_URL in
    match urlretrieve url with
    | Retrieved content =>
        ({| raw_file := Some content; retrieved := retrieved d ++ [url] |}, Returns tt)
    | Interrupted reason remains =>
        ({| raw_file := remains; retrieved := retrieved d ++ [url] |}, URLError reason)
    end.

Context `{!Builtins} `{!Csv}.

(** [main] of the cleaner from its first statement, in a directory that
    can be written: the raw file is fetched if need be, read, and
    cleaned. *)
Definition main (RAW_URL : option string) (d : Disk) : Disk * outcome Output :=
  match download_if_needed RAW_URL d with
  | (d', Returns _) =>
      (d', match Cleaner.main (reader (default "" (raw_file d'))) with
           | Ok o => Returns o
           | Raise e => Raises e
           end)
  | (d', Raises e) => (d', Raises e)
  | (d', URLError reason) => (d', URLError reason)
  end.

End Download.

(** *** A reader for files without quotes *)

(** [s.split(sep)] *)
Fixpoint split (sep : ascii) (s : string) : list string :=
  match s with
  | EmptyString => [EmptyString]
  | String a rest =>
      if Ascii.eqb a sep then EmptyString :: split sep rest
      else match split sep rest with
           | field :: fields => String a field :: fields
           | [] => [String a EmptyString]
           end
  end.

(** The lines of a text: a line feed at the end opens no line. *)
Definition lines (s : string) : list string :=
  let all := split "010"%char s in
  match last all with
  | Some EmptyString => removelast all
  | _ => all
  end.

(** [csv.reader(f, delimiter=";")] on such a text: an empty line gives
    an empty row. *)
Definition plain_reader (s : string) : list (list string) :=
  map (fun line => if String.eqb line "" then [] else split ";"%char line) (lines s).

#[export] Instance plain_csv : Csv :=
  {| reader := plain_reader; reader_empty := eq_refl |}.

(** The text of the file of the scenario. *)
Definition scenario_text : string :=
  "Nom Station;Identifiant station;Capacité de la Station;Station en fonctionnement;Actualisation de la donnée"
  +:+ String "010"%char
        ("Gare;101;20.0;OUI;2026-01-22 10:00:00" +:+ String "010"%char EmptyString).

(** A server that answers every request with that file. *)
Definition scenario_server : Urllib :=
  {| urlretrieve := fun _ => Retrieved scenario_text |}.

(** A disk without a raw file. *)
Definition empty_disk : Disk := {| raw_file := None; retrieved := [] |}.

End Download.

(** ** The integer of a number, in the words of the specification *)
Module Codec.

(** The number [m * 2 ^ e], negated when [negative], truncated toward
    zero: the quotient of the Standard Library that rounds toward
    zero. *)
Definition truncate_toward_zero (negative : bool) (m : positive) (e : Z) : Z :=
  Z.quot (cond_Zopp negative (Z.pos m) * 2 ^ Z.max 0 e) (2 ^ Z.max 0 (- e)).

End Codec.

(** ** The cells of a line by the names of their columns *)
Module Columns.
Import Py Cleaner.



End Columns.

(** ** Texts *)
Module Text.
Import Py.

(** A byte that belongs to no white space character. *)
Definition solid (a : ascii) : bool := (byte a <? 128)%N && negb (space1 a).

(** A text between two such bytes, in the list of its bytes. *)
Definition solid_ends (t : list ascii) : Prop :=
  exists f r l r', t = f :: r /\ rev t = l :: r' /\ solid f = true /\ solid l = true.

End Text.

(** ** The consumer from the start: connection, table, loop *)
Module Startup.
Import Py Consumer.

(** What [mysql.connector.connect] does at one call: a connection, a
    [mysql.connector.Error], or another exception. *)
Inductive attempt : Type :=
  | Connected
  | Refused (e : string)
  | Crashed (e : exn).

Inductive ConnEvent : Type :=
  | Echec (number retries : Z) (e : string)
  | Slept (seconds : Z).

(** The loop of [connect_mysql_with_retry] from its turn [i], with
    [todo] turns to go: the call that connected, or the exception, and
    what was printed and slept. [time.sleep] refuses a negative
    length. *)
Fixpoint connect_from (attempts : nat -> attempt) (retries delay : Z)
    (i todo : nat) : result nat * list ConnEvent :=
  match todo with
  | O => (Raise (RuntimeError "Impossible de se connecter à MySQL"), [])
  | S todo =>
      match attempts i with
      | Connected => (Ok i, [])
      | Crashed e => (Raise e, [])
      | Refused e =>
          if delay <? 0
          then (Raise (ValueError "sleep length must be non-negative"),
                [Echec (Z.of_nat i + 1) retries e])
          else
            let '(r, events) := connect_from attempts retries delay (S i) todo in
            (r, Echec (Z.of_nat i + 1) retries e :: Slept delay :: events)
      end
  end.

(** [attempts] tells what the successive calls of [connect] do. *)
Definition connect_mysql_with_retry (attempts : nat -> attempt) (retries delay : Z)
  : result nat * list ConnEvent :=
  connect_from attempts retries delay 0 (Z.to_nat retries).

(** [CREATE TABLE IF NOT EXISTS]: the database holds the table or not. *)
Definition ensure_table (database : option (list Row)) : list Row :=
  default [] database.

(** The seconds slept. *)
Definition slept (events : list ConnEvent) : Z :=
  fold_right (fun e acc => match e with Slept s => s + acc | _ => acc end) 0 events.

(** The number of lines printed. *)
Definition echecs (events : list ConnEvent) : nat :=
  length (List.filter (fun e => match e with Echec _ _ _ => true | _ => false end) events).

Section Startup.
Context `{!Builtins} `{!Datetime} `{!Json}.

(** [main]: the connection with the default 30 tries 2 seconds apart,
    the table, then the loop from the offset the group had committed.
    The broker is taken to answer; the lines printed before the loop
    are left out. *)
Definition main (attempts : nat -> attempt) (database : option (list Row))
    (group_offset : option Z) (turns : list Turn) : result World * list ConnEvent :=
  match connect_mysql_with_retry attempts 30 2 with
  | (Raise e, events) => (Raise e, events)
  | (Ok _, events) =>
      (Ok (loop {| table := ensure_table database; committed := group_offset; trace := [] |}
                turns), events)
  end.

(** The row that a turn of the loop stores, if it stores one. *)
Definition stored_row (t : Turn) : option Row :=
  match loads (value (record t)) with
  | Some (JObject payload) =>
      match row_values payload with
      | Ok row => if store_ack t then Some row else None
      | Raise _ => None
      end
  | _ => None
  end.

(** The block of the trace for a turn of the loop: for a record that
    is stored, the acknowledgement, the commit and the line; for any
    other record, one line of error. *)
Definition turn_block (t : Turn) (block : list Event) : Prop :=
  match stored_row t with
  | Some row =>
      exists station,
        block = [ Stored (offset (record t)); Committed (offset (record t) + 1);
                  Printed (Insere station (offset (record t))) ]
  | None =>
      exists e, block = [ Printed (Erreur (offset (record t)) e (value (record t))) ]
  end.

End Startup.

(** The last row of [rows] under a key. *)
Definition last_with (key : string * datetime) (rows : list Row) : option Row :=
  List.find (fun r => bool_decide (primary_key r = key)) (rev rows).

(** A value bound to an integer column: an integer or [NULL]. *)
Definition int_or_null (v : pyval) : Prop :=
  match v with PNone | PInt _ => True | _ => False end.

(** What [insert_row] makes sure of before it writes a row. *)
Record well_formed (r : Row) : Prop := {
  wf_station_code : station_code r <> "" /\ strip (station_code r) = station_code r;
  wf_code_insee : code_insee r <> "" /\ strip (code_insee r) = code_insee r;
  wf_geo : geo r <> "" /\ strip (geo r) = geo r;
  wf_capacity : int_or_null (capacity r);
  wf_docks_available : int_or_null (docks_available r);
  wf_bikes_available : int_or_null (bikes_available r);
  wf_bikes_mechanical : int_or_null (bikes_mechanical r);
  wf_bikes_ebike : int_or_null (bikes_ebike r);
  wf_is_installed : int_or_null (is_installed r);
  wf_is_returning : int_or_null (is_returning r);
}.

(** The keys of a message that [insert_row] reads. *)
Definition read_keys : list string :=
  [ "station_code"; "stationcode"; "stationCode";
    "due_date"; "duedate"; "last_reported";
    "name"; "station_name"; "nom_arrondissement_communes"; "commune";
    "capacity"; "numdocksavailable"; "docks_available";
    "numbikesavailable"; "bikes_available"; "mechanical"; "bikes_mechanical";
    "ebike"; "bikes_ebike"; "is_installed"; "is_returning";
    "code_insee"; "codeinsee"; "code-insee"; "geo" ].

End Startup.

(** ** From the cleaner to the consumer *)
Module Pipeline.
Import Py Cleaner Consumer.

(** The message that carries a record of the cleaner: each field under
    its key, as [json.dumps] writes it and [json.loads] reads it back. *)
Definition message_of (out : dict string pyval) : gmap string pyval :=
  list_to_map out.

(** A count as [insert_row] stores it when it comes under a key that
    has a fallback which is absent: a zero is stored as [NULL]. *)
Definition zero_to_null (v : pyval) : pyval :=
  match v with
  | PInt 0 => PNone
  | v => v
  end.

(** A value of a record of the cleaner bound to a text. *)
Definition text_of (v : pyval) : string :=
  match v with PStr s => s | _ => "" end.

(** The fields of a record of the cleaner by their kind. *)
Definition tri_state (v : pyval) : Prop := v = PNone \/ v = PInt 0 \/ v = PInt 1.

End Pipeline.


(** ** More examples *)
Module Cases.
Import Py Cleaner Consumer Reference Examples Startup.

(** A second station, as JSON. *)
Definition payload_mairie : string :=
  json_text "{'station_code':'102','due_date':'2026-01-22 10:05:00','code_insee':'75056','geo':'48.86,2.34'}".

(** The station of [msg_gare] with a member that [insert_row] has no
    key for. *)
Definition msg_gare_noted : gmap string pyval :=
  <["note" := PStr "en travaux"]> msg_gare.

(** A database that refuses the first two connections. *)
Definition slow_start (i : nat) : attempt :=
  if (i <? 2)%nat then Refused "Can't connect to MySQL server" else Connected.

(** A raw file without a column for the station code. *)
Definition header_without_code : list string :=
  [ "Nom Station"; "Capacité de la Station"; "Actualisation de la donnée" ].

(** A raw file with two columns for the station code. *)
Definition header_two_codes : list string :=
  [ "Identifiant station"; " identifiant STATION "; "Nom Station" ].

End Cases.
(** ** Properties of the builtins *)
Module PyFacts.
Import Py.

Ltac split_orb_false :=
  repeat match goal with
  | H : _ || _ = false |- _ => apply orb_false_elim in H as [? ?]
  end;
  repeat match goal with
  | H : _ = false |- _ => rewrite H
  end.

Lemma drop_spaces_fixed back s :
  head_space back s = false -> drop_spaces back s = s.
Proof.
  destruct s as [|a [|b [|c r]]]; simpl; rewrite ?orb_false_r;
    try reflexivity; intros H; split_orb_false; reflexivity.
Qed.

Lemma drop_spaces_spec back n : forall s, (length s <= n)%nat ->
  head_space back (drop_spaces back s) = false /\
  exists p, s = p ++ drop_spaces back s.
Proof.
  induction n as [|n IH]; intros s Hn.
  { destruct s; simpl in *; [|lia]. split; [reflexivity|]. by exists []. }
  destruct s as [|a r]; simpl in Hn |- *.
  { split; [reflexivity|]. by exists []. }
  destruct (space1 a) eqn:Ha.
  { destruct (IH r ltac:(lia)) as [H1 [p H2]]. split; [exact H1|].
    exists (a :: p). simpl. congruence. }
  destruct r as [|b r2].
  { split; [simpl; rewrite Ha; reflexivity|]. by exists []. }
  simpl in Hn.
  destruct (if back then space2 b a else space2 a b) eqn:Hb.
  { destruct (IH r2 ltac:(lia)) as [H1 [p H2]]. split; [exact H1|].
    exists (a :: b :: p). simpl. congruence. }
  destruct r2 as [|c r3].
  { split; [simpl; rewrite Ha, Hb; reflexivity|]. by exists []. }
  simpl in Hn.
  destruct (if back then space3 c b a else space3 a b c) eqn:Hc.
  { destruct (IH r3 ltac:(lia)) as [H1 [p H2]]. split; [exact H1|].
    exists (a :: b :: c :: p). simpl. congruence. }
  split; [simpl; rewrite Ha, Hb, Hc; reflexivity|]. by exists [].
Qed.

Lemma head_space_drop back s : head_space back (drop_spaces back s) = false.
Proof. exact (proj1 (drop_spaces_spec back (length s) s (le_n _))). Qed.

Lemma drop_spaces_suffix back s : exists p, s = p ++ drop_spaces back s.
Proof. exact (proj2 (drop_spaces_spec back (length s) s (le_n _))). Qed.

Lemma head_space_prefix back u q :
  head_space back (u ++ q) = false -> head_space back u = false.
Proof.
  destruct u as [|a [|b [|c u]]]; simpl; rewrite ?orb_false_r;
    try reflexivity; intros H; split_orb_false; reflexivity.
Qed.

(** Stripping a stripped text changes nothing. *)
Lemma strip_idemp s : strip (strip s) = strip s.
Proof.
  unfold strip. rewrite list_ascii_of_string_of_list_ascii.
  set (t := drop_spaces false (list_ascii_of_string s)).
  set (x := drop_spaces true (rev t)).
  destruct (drop_spaces_suffix true (rev t)) as [p Hp]. fold x in Hp.
  assert (Ht : t = rev x ++ rev p).
  { rewrite <- (rev_involutive t), Hp, rev_app_distr. reflexivity. }
  assert (Hx : drop_spaces false (rev x) = rev x).
  { apply drop_spaces_fixed, head_space_prefix with (q := rev p).
    rewrite <- Ht. apply head_space_drop. }
  rewrite Hx, rev_involutive.
  rewrite (drop_spaces_fixed true x) by apply head_space_drop. reflexivity.
Qed.

End PyFacts.

(** ** Properties of the dictionaries *)
Module DictFacts.
Import Py.
Section DictFacts.
Context {K V : Type} `{EqDecision K}.
Implicit Types (d : dict K V) (k : K) (v : V).

Lemma dict_get_set d k v k' :
  dict_get (dict_set d k v) k' = if decide (k = k') then Some v else dict_get d k'.
Proof.
  induction d as [|[k0 v0] d IH]; simpl.
  - destruct (decide (k = k')); reflexivity.
  - destruct (decide (k0 = k)) as [->|Hne]; simpl.
    + destruct (decide (k = k')); reflexivity.
    + rewrite IH. destruct (decide (k0 = k')) as [->|]; [|reflexivity].
      destruct (decide (k = k')); congruence.
Qed.

Lemma dict_get_Some_keys d k v : dict_get d k = Some v -> In k (dict_keys d).
Proof.
  induction d as [|[k0 v0] d IH]; simpl; [discriminate|].
  destruct (decide (k0 = k)); auto.
Qed.

Lemma dict_keys_get d k : In k (dict_keys d) -> exists v, dict_get d k = Some v.
Proof.
  induction d as [|[k0 v0] d IH]; simpl; [tauto|].
  destruct (decide (k0 = k)); [eauto|]. intros [?|?]; [congruence|auto].
Qed.

Lemma dict_keys_set d k v k' :
  In k' (dict_keys (dict_set d k v)) <-> k' = k \/ In k' (dict_keys d).
Proof.
  induction d as [|[k0 v0] d IH]; simpl.
  - intuition.
  - destruct (decide (k0 = k)) as [->|]; simpl; [intuition|].
    rewrite IH. intuition.
Qed.

Lemma dict_set_Forall (P : K * V -> Prop) d k v :
  (forall k0, P (k0, v)) -> Forall P d -> Forall P (dict_set d k v).
Proof.
  intros Hv. induction 1 as [|[k0 v0] d H0 Hd IH]; simpl.
  - constructor; auto.
  - destruct (decide (k0 = k)); constructor; auto.
Qed.

Lemma dict_get_Forall (P : K * V -> Prop) d k v :
  Forall P d -> dict_get d k = Some v -> exists k0, P (k0, v).
Proof.
  induction 1 as [|[k0 v0] d H0 Hd IH]; simpl; [discriminate|].
  destruct (decide (k0 = k)); [|auto]. intros [= <-]. eauto.
Qed.

(** The keys of [dict(pairs)], seen through a fold from any start. *)
Lemma fold_dict_set_keys (pairs : list (K * V)) d k :
  In k (dict_keys (fold_left (fun d kv => dict_set d (fst kv) (snd kv)) pairs d))
  <-> In k (map fst pairs) \/ In k (dict_keys d).
Proof.
  revert d. induction pairs as [|[k0 v0] pairs IH]; intros d; simpl.
  - intuition.
  - rewrite IH, dict_keys_set. simpl. intuition.
Qed.

Lemma fold_dict_set_Forall (P : K * V -> Prop) (pairs : list (K * V)) d :
  (forall k0 kv, In kv pairs -> P (k0, snd kv)) -> Forall P d ->
  Forall P (fold_left (fun d kv => dict_set d (fst kv) (snd kv)) pairs d).
Proof.
  revert d. induction pairs as [|[k0 v0] pairs IH]; intros d Hp Hd; simpl; [exact Hd|].
  apply IH; [intros; apply Hp; simpl; auto|].
  apply dict_set_Forall; [|exact Hd]. intros k1. apply (Hp k1 (k0, v0)). simpl; auto.
Qed.

End DictFacts.
End DictFacts.
(** ** Properties of the cleaner *)
Module CleanerFacts.
Import Py PyFacts DictFacts Cleaner.

Section CleanerFacts.
Context `{!Builtins}.

(** *** The rows of [DictReader] and the dictionary [r] *)

Lemma combine_fst_In {A B} (l : list A) (l' : list B) x :
  In x (map fst (combine l l')) -> In x l.
Proof.
  revert l'. induction l as [|a l IH]; intros [|b l']; simpl; try tauto.
  intros [?|?]; eauto.
Qed.

Lemma In_skipn {A} n (l : list A) x : In x (skipn n l) -> In x l.
Proof.
  revert l. induction n as [|n IH]; intros [|a l]; simpl; auto.
Qed.

Lemma dict_of_combine_keys (fieldnames : list string) (vs : list pyval) k :
  In k (dict_keys (dict_of (combine fieldnames vs))) -> In k fieldnames.
Proof.
  unfold dict_of. rewrite fold_dict_set_keys.
  intros [?%combine_fst_In|[]]; assumption.
Qed.

Lemma DictReader_next_keys fieldnames line k :
  In k (dict_keys (named (DictReader_next fieldnames line))) -> In k fieldnames.
Proof.
  unfold DictReader_next.
  destruct (_ <? _)%nat; [|destruct (_ <? _)%nat]; simpl;
    try apply dict_of_combine_keys.
  generalize (dict_of_combine_keys fieldnames (map PStr line)).
  generalize (dict_of (combine fieldnames (map PStr line))).
  generalize (skipn (length line) fieldnames) (In_skipn (length line) fieldnames).
  intros l Hl. induction l as [|a l IH]; intros d Hd; simpl; [apply Hd|].
  apply IH; [intros; apply Hl; simpl; auto|].
  intros k0 [->|?]%dict_keys_set; [apply Hl; simpl; auto|auto].
Qed.

Lemma DictReader_next_cells fieldnames line :
  cells (named (DictReader_next fieldnames line)).
Proof.
  assert (Hd : cells (dict_of (combine fieldnames (map PStr line)))).
  { apply fold_dict_set_Forall; [|constructor].
    intros k0 [k v] Hin. apply in_combine_r in Hin.
    apply in_map_iff in Hin as [s [<- _]]. exact I. }
  unfold DictReader_next.
  destruct (_ <? _)%nat; [|destruct (_ <? _)%nat]; simpl; try exact Hd.
  generalize (skipn (length line) fieldnames). intros l.
  revert Hd. generalize (dict_of (combine fieldnames (map PStr line))).
  induction l as [|a l IH]; intros d Hd; simpl; [exact Hd|].
  apply IH. apply dict_set_Forall; [intros; exact I|exact Hd].
Qed.

Lemma header_mapping_get fieldnames k :
  In k fieldnames -> exists k', dict_get (header_mapping fieldnames) k = Some k'.
Proof.
  intros Hk. apply dict_keys_get. unfold header_mapping, dict_of.
  rewrite fold_dict_set_keys. left. rewrite map_map. simpl. rewrite map_id. exact Hk.
Qed.

(** Renaming the keys of a row never fails when every key of the row
    is a key of [mapping], and yields stripped texts and [None] only. *)
Lemma rename_keys_ok mapping row :
  (forall k, In k (dict_keys (named row)) -> exists k', dict_get mapping k = Some k') ->
  cells (named row) ->
  exists r, rename_keys mapping row = Ok r /\ stripped_cells r.
Proof.
  unfold rename_keys.
  assert (H0 : stripped_cells ([] : dict string pyval)) by constructor.
  revert H0. generalize ([] : dict string pyval).
  induction (named row) as [|[k v] d IH]; intros r0 Hr0 Hk Hc; simpl.
  - eauto.
  - destruct (Hk k) as [k' Hk']; [simpl; auto|]. rewrite Hk'.
    inversion Hc as [|? ? Hv Hc']; subst.
    apply IH; [|intros; apply Hk; simpl; auto|exact Hc'].
    apply dict_set_Forall; [|exact Hr0].
    intros k0. simpl in *. destruct v; simpl; auto using strip_idemp.
Qed.

Lemma rename_keys_renamed fieldnames line :
  rename_keys (header_mapping fieldnames) (DictReader_next fieldnames line)
  = Ok (renamed fieldnames line) /\ stripped_cells (renamed fieldnames line).
Proof.
  destruct (rename_keys_ok (header_mapping fieldnames) (DictReader_next fieldnames line))
    as [r [Hr Hc]].
  - intros k Hk. apply header_mapping_get. eapply DictReader_next_keys, Hk.
  - apply DictReader_next_cells.
  - unfold renamed. rewrite Hr. auto.
Qed.

Lemma get_stripped r k : stripped_cells r -> is_stripped (get r k).
Proof.
  intros Hc. unfold get. destruct (dict_get r k) as [v|] eqn:Hg; simpl; [|exact I].
  destruct (dict_get_Forall _ _ _ _ Hc Hg) as [k0 Hk0]. exact Hk0.
Qed.

Lemma py_or_stripped a b : is_stripped a -> is_stripped b -> is_stripped (py_or a b).
Proof. unfold py_or. destruct (truthy a); auto. Qed.

Lemma stripped_cell v : is_stripped v -> is_cell v.
Proof. destruct v; simpl; auto. Qed.

(** A value of the file is true exactly when it is a text that is not
    empty. *)
Lemma truthy_cell v :
  is_cell v -> truthy v = true <-> exists s, v = PStr s /\ s <> "".
Proof.
  destruct v; simpl; try tauto.
  - intros _. split; [discriminate|]. intros [s [? _]]. discriminate.
  - intros _. destruct (String.eqb_spec s ""); simpl; split.
    + discriminate.
    + intros [s' [[= <-] Hs]]. contradiction.
    + eauto.
    + reflexivity.
Qed.

(** *** The loop over the rows *)

Lemma clean_row_renamed fieldnames line :
  clean_row (header_mapping fieldnames) (DictReader_next fieldnames line)
  = Ok (clean (renamed fieldnames line)).
Proof.
  unfold clean_row. rewrite (proj1 (rename_keys_renamed fieldnames line)).
  reflexivity.
Qed.

Lemma clean_rows_DictReader fieldnames lines :
  clean_rows (header_mapping fieldnames) (DictReader fieldnames lines)
  = Ok (omap (fun line => clean (renamed fieldnames line))
             (List.filter (fun row => negb (Nat.eqb (length row) 0)) lines)).
Proof.
  unfold DictReader.
  induction (List.filter _ lines) as [|line l IH]; simpl; [reflexivity|].
  rewrite clean_row_renamed, IH. simpl.
  destruct (clean (renamed fieldnames line)); reflexivity.
Qed.



Lemma clean_keys r out : clean r = Some out -> dict_keys out = canonical_fields.
Proof.
  unfold clean. destruct (_ || _); [discriminate|]. intros [= <-]. reflexivity.
Qed.

Lemma omap_clean_keys {A} (f : A -> dict string pyval) (l : list A) :
  Forall (fun out => dict_keys out = canonical_fields) (omap (fun x => clean (f x)) l).
Proof.
  induction l as [|x l IH]; simpl; [constructor|].
  destruct (clean (f x)) as [out|] eqn:Hc; [|exact IH].
  constructor; [eapply clean_keys, Hc|exact IH].
Qed.

(** *** Writing the cleaned rows *)

Lemma dict_to_list_canonical (row : dict string pyval) :
  dict_keys row = canonical_fields ->
  dict_to_list canonical_fields row = Ok (map snd row).
Proof.
  unfold dict_keys, canonical_fields. intros Hk.
  repeat (destruct row as [|[? ?] row]; [discriminate Hk|];
          simpl in Hk; injection Hk as -> Hk).
  destruct row; [|discriminate Hk]. reflexivity.
Qed.

Lemma writerows_canonical (rows : list (dict string pyval)) :
  Forall (fun out => dict_keys out = canonical_fields) rows ->
  writerows canonical_fields rows = Ok (map (map snd) rows).
Proof.
  induction 1 as [|row rows Hrow Hrows IH]; simpl; [reflexivity|].
  rewrite dict_to_list_canonical, IH by assumption. reflexivity.
Qed.

(** The two fields that admit a line are texts that are not empty in
    the record written. *)
Lemma truthy_stripped v :
  is_stripped v -> truthy v = true -> nonempty_text (PStr (strip (str v))).
Proof.
  intros Hs Ht. apply truthy_cell in Ht as [s [-> Hne]]; [|apply stripped_cell, Hs].
  simpl in *. rewrite Hs. exists s. auto.
Qed.

Lemma clean_required r out :
  stripped_cells r -> clean r = Some out ->
  nonempty_text (get out "station_code") /\ nonempty_text (get out "due_date").
Proof.
  intros Hr. unfold clean.
  destruct (truthy (get r "identifiant_station")) eqn:Hsc; [|discriminate].
  destruct (truthy (py_or _ _)) eqn:Hdd; [|discriminate].
  simpl. intros [= <-]. split.
  - apply (truthy_stripped _ (get_stripped r _ Hr) Hsc).
  - apply (truthy_stripped _ (py_or_stripped _ _ (get_stripped r _ Hr) (get_stripped r _ Hr)) Hdd).
Qed.

Lemma main_jsonl raw o :
  main raw = Ok o ->
  exists fieldnames lines,
    jsonl o = omap (fun l => clean (renamed fieldnames l)) lines.
Proof.
  unfold main. rewrite clean_rows_DictReader. simpl.
  set (rows := omap _ _).
  assert (Hrows : Forall (fun out => dict_keys out = canonical_fields) rows)
    by apply omap_clean_keys.
  assert (Hdef : exists fieldnames lines,
            rows = omap (fun l => clean (renamed fieldnames l)) lines) by eauto.
  clearbody rows.
  destruct rows as [|first rest]; [discriminate|].
  inversion Hrows as [|? ? Hfirst Hrest]; subst.
  rewrite Hfirst, (writerows_canonical _ Hrows). simpl. intros [= <-]. exact Hdef.
Qed.

(** *** The claims on the cleaner *)

(** C9. The station of the scenario is admitted, with its code, its
    capacity read from the text of a float, its state read from [OUI],
    and its date kept as a text. *)
Theorem scenario_record :
  exists o out,
    main scenario = Ok o /\ jsonl o = [out]
    /\ get out "station_code" = PStr "101"
    /\ get out "capacity" = PInt 20
    /\ get out "is_installed" = PInt 1
    /\ get out "due_date" = PStr "2026-01-22 10:00:00".
Proof.
  eexists. eexists. vm_compute. repeat split.
Qed.

(** C10. Every record written has the thirteen fields of the literal,
    in its order, whatever the headers of the raw file; the header of
    the cleaned CSV is that list, every line of it holds the thirteen
    values of its record, and writing never fails: [main] fails only
    for want of a cleaned row. *)
Theorem main_fields (raw : list (list string)) :
  match main raw with
  | Ok o =>
      csv_header o = canonical_fields
      /\ Forall (fun out => dict_keys out = canonical_fields) (jsonl o)
      /\ csv_lines o = map (map snd) (jsonl o)
  | Raise e =>
      e = RuntimeError "Aucune ligne nettoyée (vérifie les noms de colonnes / parsing)."
  end.
Proof.
  unfold main. rewrite clean_rows_DictReader. simpl.
  set (rows := omap _ _).
  assert (Hrows : Forall (fun out => dict_keys out = canonical_fields) rows)
    by apply omap_clean_keys.
  destruct rows as [|first rest]; [reflexivity|].
  inversion Hrows as [|? ? Hfirst Hrest]; subst.
  rewrite Hfirst, (writerows_canonical _ Hrows). simpl. auto.
Qed.

End CleanerFacts.
End CleanerFacts.
(** ** Properties of the consumer *)
Module ConsumerFacts.
Import Py PyFacts Consumer.

(** *** The table and its primary key *)

Lemma on_duplicate_key_update_same old new :
  primary_key old = primary_key new -> on_duplicate_key_update old new = new.
Proof.
  destruct old, new. unfold primary_key, on_duplicate_key_update. simpl.
  intros [= -> ->]. reflexivity.
Qed.

Lemma upsert_keys table new :
  map primary_key (upsert table new) = map primary_key table
  \/ ~ In (primary_key new) (map primary_key table)
     /\ map primary_key (upsert table new) = map primary_key table ++ [primary_key new].
Proof.
  induction table as [|old rest IH]; simpl.
  - right. tauto.
  - destruct (decide (primary_key old = primary_key new)) as [Heq|Hne]; simpl.
    + left. rewrite on_duplicate_key_update_same by exact Heq. congruence.
    + destruct IH as [->|[Hnin ->]]; [left; reflexivity|right]. tauto.
Qed.

Lemma NoDup_snoc {A} (l : list A) (x : A) :
  List.NoDup l -> ~ In x l -> List.NoDup (l ++ [x]).
Proof.
  induction 1 as [|y l Hy Hl IH]; simpl; intros Hx.
  - constructor; [simpl; tauto|constructor].
  - constructor; [|apply IH; tauto].
    rewrite in_app_iff. simpl. intros [?|[?|[]]]; [contradiction|].
    apply Hx. auto.
Qed.

(** The primary key stays a key through an upsert. *)
Lemma upsert_pk_unique table new : pk_unique table -> pk_unique (upsert table new).
Proof.
  unfold pk_unique. intros Hu.
  destruct (upsert_keys table new) as [->|[Hnin ->]]; [exact Hu|].
  apply NoDup_snoc; assumption.
Qed.

Lemma rows_with_absent key table :
  ~ In key (map primary_key table) -> rows_with key table = [].
Proof.
  induction table as [|r rest IH]; simpl; [reflexivity|]. intros Hnin.
  rewrite bool_decide_eq_false_2 by tauto. apply IH. tauto.
Qed.

(** After an upsert the key of the row holds that row and no other. *)
Lemma rows_with_upsert table new :
  pk_unique table -> rows_with (primary_key new) (upsert table new) = [new].
Proof.
  unfold pk_unique. induction table as [|old rest IH]; simpl; intros Hu.
  - rewrite bool_decide_eq_true_2 by reflexivity. reflexivity.
  - inversion Hu as [|? ? Hnin Hu']; subst.
    destruct (decide (primary_key old = primary_key new)) as [Heq|Hne]; simpl.
    + rewrite on_duplicate_key_update_same by exact Heq.
      rewrite bool_decide_eq_true_2 by reflexivity.
      fold (rows_with (primary_key new) rest).
      rewrite rows_with_absent by (rewrite <- Heq; exact Hnin). reflexivity.
    + rewrite bool_decide_eq_false_2 by exact Hne. apply IH, Hu'.
Qed.

(** An upsert of a row already stored changes nothing. *)
Lemma upsert_stored table new :
  In new table -> pk_unique table -> upsert table new = table.
Proof.
  unfold pk_unique. induction table as [|old rest IH]; simpl; [tauto|].
  intros Hin Hu. inversion Hu as [|? ? Hnin Hu']; subst.
  destruct (decide (primary_key old = primary_key new)) as [Heq|Hne].
  - rewrite on_duplicate_key_update_same by exact Heq.
    destruct Hin as [->|Hin]; [reflexivity|].
    exfalso. apply Hnin. rewrite Heq. apply in_map, Hin.
  - destruct Hin as [->|Hin]; [contradiction|]. f_equal. auto.
Qed.

Lemma rows_with_In key table r : rows_with key table = [r] -> In r table.
Proof.
  intros Hr. assert (Hin : In r (rows_with key table)) by (rewrite Hr; simpl; auto).
  unfold rows_with in Hin. apply filter_In in Hin. tauto.
Qed.

Section ConsumerFacts.
Context `{!Builtins} `{!Datetime}.

(** *** The checks of [insert_row] *)

(** [row_values] by cases on the four values it requires. *)
Lemma row_values_cases msg :
  row_values msg =
  if String.eqb (station_code_text msg) "" then Raise (ValueError "station_code manquant")
  else match parse_due_date (due_date_value msg) with
       | None => Raise (ValueError "due_date/duedate manquant ou illisible")
       | Some dt =>
           if String.eqb (code_insee_text msg) "" then Raise (ValueError "code_insee manquant")
           else if String.eqb (geo_text msg) "" then Raise (ValueError "geo manquant")
           else
             Ok {| station_code := station_code_text msg;
                   station_name := py_or (msg_get msg "name") (msg_get msg "station_name");
                   commune := py_or (msg_get msg "nom_arrondissement_communes")
                                    (msg_get msg "commune");
                   capacity := to_int_or_none (msg_get msg "capacity");
                   docks_available :=
                     to_int_or_none (py_or (msg_get msg "numdocksavailable")
                                           (msg_get msg "docks_available"));
                   bikes_available :=
                     to_int_or_none (py_or (msg_get msg "numbikesavailable")
                                           (msg_get msg "bikes_available"));
                   bikes_mechanical :=
                     to_int_or_none (py_or (msg_get msg "mechanical")
                                           (msg_get msg "bikes_mechanical"));
                   bikes_ebike :=
                     to_int_or_none (py_or (msg_get msg "ebike") (msg_get msg "bikes_ebike"));
                   is_installed := to_int_or_none (msg_get msg "is_installed");
                   is_returning := to_int_or_none (msg_get msg "is_returning");
                   due_date := dt;
                   code_insee := code_insee_text msg;
                   geo := geo_text msg |}
       end.
Proof. reflexivity. Qed.

Lemma row_values_Ok msg row :
  row_values msg = Ok row ->
  station_code row = station_code_text msg /\ station_code_text msg <> ""
  /\ parse_due_date (due_date_value msg) = Some (due_date row)
  /\ code_insee row = code_insee_text msg /\ code_insee_text msg <> ""
  /\ geo row = geo_text msg /\ geo_text msg <> "".
Proof.
  rewrite row_values_cases.
  destruct (String.eqb_spec (station_code_text msg) ""); [discriminate|].
  destruct (parse_due_date _); [|discriminate].
  destruct (String.eqb_spec (code_insee_text msg) ""); [discriminate|].
  destruct (String.eqb_spec (geo_text msg) ""); [discriminate|].
  intros [= <-]. simpl. auto 10.
Qed.

Lemma insert_row_Ok conn msg row :
  row_values msg = Ok row -> insert_row true conn msg = Ok (upsert conn row).
Proof. unfold insert_row. intros ->. reflexivity. Qed.

Lemma insert_row_Raise ack conn msg e :
  row_values msg = Raise e -> insert_row ack conn msg = Raise e.
Proof. unfold insert_row. intros ->. reflexivity. Qed.

(** C2. Two messages with the same station code and date, inserted one
    after the other into a table that obeys its primary key, leave one
    row under that key, equal to the second message in every column;
    inserting either message once more changes nothing. *)
Theorem upsert_last_write_wins conn msg1 msg2 row1 row2 :
  pk_unique conn ->
  row_values msg1 = Ok row1 ->
  row_values msg2 = Ok row2 ->
  primary_key row1 = primary_key row2 ->
  exists conn1 conn2,
    insert_row true conn msg1 = Ok conn1
    /\ insert_row true conn1 msg2 = Ok conn2
    /\ rows_with (primary_key row2) conn2 = [row2]
    /\ pk_unique conn2
    /\ insert_row true conn1 msg1 = Ok conn1
    /\ insert_row true conn2 msg2 = Ok conn2.
Proof.
  intros Hu H1 H2 Hk.
  exists (upsert conn row1), (upsert (upsert conn row1) row2).
  assert (Hu1 : pk_unique (upsert conn row1)) by apply upsert_pk_unique, Hu.
  assert (Hu2 : pk_unique (upsert (upsert conn row1) row2))
    by apply upsert_pk_unique, Hu1.
  rewrite !(insert_row_Ok _ _ _ H1), !(insert_row_Ok _ _ _ H2).
  repeat split; try assumption.
  - apply rows_with_upsert, Hu1.
  - f_equal. apply upsert_stored; [|exact Hu1].
    eapply rows_with_In, rows_with_upsert, Hu.
  - f_equal. apply upsert_stored; [|exact Hu2].
    eapply rows_with_In, rows_with_upsert, Hu1.
Qed.

(** *** The timestamp *)

Lemma append_assoc (s1 s2 s3 : string) : (s1 +:+ s2) +:+ s3 = s1 +:+ (s2 +:+ s3).
Proof.
  induction s1 as [|a s1 IH]; [reflexivity|].
  change (String a ((s1 +:+ s2) +:+ s3) = String a (s1 +:+ (s2 +:+ s3))).
  rewrite IH. reflexivity.
Qed.

Lemma replace_app old new s1 s2 :
  replace old new (s1 +:+ s2) = replace old new s1 +:+ replace old new s2.
Proof.
  induction s1 as [|a s1 IH]; [reflexivity|].
  change (String a s1 +:+ s2) with (String a (s1 +:+ s2)). simpl.
  destruct (Ascii.eqb a old); rewrite IH.
  - symmetry. apply append_assoc.
  - reflexivity.
Qed.


(** *** The fields that are required *)

(** C6. [insert_row] raises a [ValueError] exactly when the station
    code, the date, the INSEE code or the position is empty once
    stripped, or the date cannot be read; the message of the error
    names the first of them that is, the four messages differ, and a
    call that raises writes nothing: the table is as it was. *)
Theorem mandatory_fields `{!Json} (msg : gmap string pyval) :
  let sc := station_code_text msg in
  let dd := parse_due_date (due_date_value msg) in
  let ci := code_insee_text msg in
  let g := geo_text msg in
  ((exists m, row_values msg = Raise (ValueError m))
     <-> sc = "" \/ dd = None \/ ci = "" \/ g = "")
  /\ (row_values msg = Raise (ValueError "station_code manquant") <-> sc = "")
  /\ (row_values msg = Raise (ValueError "due_date/duedate manquant ou illisible")
        <-> sc <> "" /\ dd = None)
  /\ (row_values msg = Raise (ValueError "code_insee manquant")
        <-> sc <> "" /\ dd <> None /\ ci = "")
  /\ (row_values msg = Raise (ValueError "geo manquant")
        <-> sc <> "" /\ dd <> None /\ ci <> "" /\ g = "")
  /\ List.NoDup validation_errors
  /\ (forall e, row_values msg = Raise e ->
        In e validation_errors
        /\ (forall ack conn, insert_row ack conn msg = Raise e)
        /\ (forall w t, loads (value (record t)) = Some (JObject msg) ->
              table (loop_body w t) = table w))
  /\ ((exists row, row_values msg = Ok row)
        <-> sc <> "" /\ dd <> None /\ ci <> "" /\ g <> "").
Proof.
  intros sc dd ci g.
  assert (Hnd : List.NoDup validation_errors).
  { unfold validation_errors. repeat constructor; simpl; intuition discriminate. }
  assert (Hloop : forall e, row_values msg = Raise e ->
            forall w t, loads (value (record t)) = Some (JObject msg) ->
            table (loop_body w t) = table w).
  { intros e He w t Hl. unfold loop_body, process, insert_row.
    rewrite Hl, He. reflexivity. }
  assert (Hins : forall e, row_values msg = Raise e ->
            forall ack conn, insert_row ack conn msg = Raise e).
  { intros e He ack conn. apply insert_row_Raise, He. }
  revert Hloop Hins. rewrite row_values_cases. fold sc dd ci g.
  intros Hloop Hins. unfold validation_errors.
  destruct (String.eqb_spec sc ""), dd as [dt|],
           (String.eqb_spec ci ""), (String.eqb_spec g "");
    repeat split; intros;
    repeat match goal with
    | H : exists _, _ |- _ => destruct H
    | H : _ /\ _ |- _ => destruct H
    | H : Raise _ = Raise _ |- _ => injection H as <-
    end;
    try discriminate; try congruence; try contradiction;
    eauto using Hnd; simpl; try tauto;
    try (intuition congruence).
Qed.

(** *** The aliases of a field *)





(** *** The loop *)

Context `{!Json}.

(** One turn of the loop, taken alone: a commit is made exactly when
    the payload decodes to an object, maps to a row and the store
    acknowledges the upsert: then the table holds the upsert, the
    commit follows the acknowledgement and precedes the line printed;
    otherwise the table and the committed offset are as they were and
    one line is printed, with the offset, the error and the payload.
    In both cases the loop goes on with the next record. *)
Theorem commit_iff_upsert (w : World) (t : Turn) :
  let r := record t in
  let w' := loop_body w t in
  let upserted :=
    exists payload row,
      loads (value r) = Some (JObject payload)
      /\ row_values payload = Ok row /\ store_ack t = true in
  (exists events,
      trace w' = trace w ++ events
      /\ (In (Committed (offset r + 1)) events <-> upserted)
      /\ (forall position, In (Committed position) events -> position = offset r + 1))
  /\ (forall payload row,
        loads (value r) = Some (JObject payload) ->
        row_values payload = Ok row -> store_ack t = true ->
        table w' = upsert (table w) row
        /\ committed w' = Some (offset r + 1)
        /\ trace w' = trace w ++
             [ Stored (offset r); Committed (offset r + 1);
               Printed (Insere (py_or (msg_get payload "station_code")
                                      (msg_get payload "stationcode")) (offset r)) ])
  /\ (~ upserted ->
        table w' = table w /\ committed w' = committed w
        /\ exists e, trace w' = trace w ++ [Printed (Erreur (offset r) e (value r))])
  /\ (forall turns, loop w (t :: turns) = loop w' turns).
Proof.
  intros r w' upserted.
  split; [|split; [|split; [|reflexivity]]];
    subst r w' upserted; unfold loop_body, process, insert_row, execute;
    (destruct (loads (value (record t))) as [[payload|]|] eqn:Hl;
     [destruct (row_values payload) as [row|e] eqn:Hrow;
      [destruct (store_ack t) eqn:Hack|]|..]);
    cbn [mbind result_bind table committed trace].
  (* the events of the turn *)
  - eexists. split; [reflexivity|]. split; [split|].
    + eauto.
    + simpl. auto.
    + simpl. intros p [?|[?|[?|[]]]]; congruence.
  - eexists. split; [reflexivity|]. split; [split|].
    + simpl. intros [?|[]]. discriminate.
    + intros (p & row' & _ & _ & ?). discriminate.
    + simpl. intros p [?|[]]. discriminate.
  - eexists. split; [reflexivity|]. split; [split|].
    + simpl. intros [?|[]]. discriminate.
    + intros (p & row' & [= <-] & ? & _). congruence.
    + simpl. intros p [?|[]]. discriminate.
  - eexists. split; [reflexivity|]. split; [split|].
    + simpl. intros [?|[]]. discriminate.
    + intros (p & row' & ? & _). discriminate.
    + simpl. intros p [?|[]]. discriminate.
  - eexists. split; [reflexivity|]. split; [split|].
    + simpl. intros [?|[]]. discriminate.
    + intros (p & row' & ? & _). discriminate.
    + simpl. intros p [?|[]]. discriminate.
  (* a turn that succeeds *)
  - intros p row' [= <-] Hr _. rewrite Hrow in Hr. injection Hr as <-. auto.
  - intros p row' _ _ ?. discriminate.
  - intros p row' [= <-] Hr _. congruence.
  - intros p row' ?. discriminate.
  - intros p row' ?. discriminate.
  (* a turn that fails *)
  - intros Hn. exfalso. apply Hn. eauto.
  - eauto.
  - eauto.
  - eauto.
  - eauto.
Qed.

(** Every record of the topic gets its turn: the loop prints one line
    for each. *)
Lemma loop_trace_length (turns : list Turn) (w : World) :
  exists events,
    trace (loop w turns) = trace w ++ events
    /\ length (List.filter (fun e => match e with Printed _ => true | _ => false end) events)
       = length turns.
Proof.
  revert w. induction turns as [|t turns IH]; intros w; simpl.
  - exists []. rewrite app_nil_r. auto.
  - destruct (IH (loop_body w t)) as [events [Htr Hlen]]. fold (loop (loop_body w t) turns).
    rewrite Htr. unfold loop_body at 1.
    destruct (process _ _ _) as [[payload conn']|e]; simpl;
      rewrite <- app_assoc; eexists; (split; [reflexivity|]);
      rewrite List.filter_app, List.length_app, Hlen; reflexivity.
Qed.

(** The loop keeps the primary key of the table. *)
Lemma loop_pk_unique (turns : list Turn) (w : World) :
  pk_unique (table w) -> pk_unique (table (loop w turns)).
Proof.
  revert w. induction turns as [|t turns IH]; intros w Hu; [exact Hu|].
  apply IH. unfold loop_body, process, insert_row, execute.
  destruct (loads (value (record t))) as [[payload|]|]; try exact Hu.
  destruct (row_values payload) as [row|e]; [|exact Hu].
  destruct (store_ack t); [|exact Hu].
  apply upsert_pk_unique, Hu.
Qed.

(** The commit is that of a position in the topic: a later commit
    carries the committed offset past the records before it, whatever
    became of them. *)
Lemma commit_position (w : World) (t1 t2 : Turn) payload row :
  loads (value (record t2)) = Some (JObject payload) ->
  row_values payload = Ok row -> store_ack t2 = true ->
  committed (loop w [t1; t2]) = Some (offset (record t2) + 1).
Proof.
  intros Hl Hrow Hack. simpl. unfold loop_body at 1, process, insert_row.
  rewrite Hl, Hrow, Hack. reflexivity.
Qed.

End ConsumerFacts.
End ConsumerFacts.
(** ** The two programs side by side *)
Module RecordFacts.
Import Py PyFacts Cleaner CleanerFacts Consumer ConsumerFacts.

Section RecordFacts.
Context `{!Builtins} `{!Datetime}.

Lemma int_of_str_blank s : strip s = "" -> int_of_str s = None.
Proof. unfold int_of_str. intros ->. reflexivity. Qed.

Lemma In_omap {A B} (f : A -> option B) (l : list A) (y : B) :
  In y (omap f l) -> exists x, In x l /\ f x = Some y.
Proof.
  induction l as [|x l IH]; simpl; [tauto|].
  destruct (f x) as [y'|] eqn:Hf.
  - intros [<-|Hin]; [eauto|]. destruct (IH Hin) as [x' [? ?]]. eauto.
  - intros Hin. destruct (IH Hin) as [x' [? ?]]. eauto.
Qed.

(** C5, as amended. A row mapped from a message has a station code, an
    INSEE code and a position that are not empty, and the date that
    was read; a record of the cleaner has a station code and a date
    that are texts and not empty. Nothing is said of the INSEE code
    and the position of a record of the cleaner. *)
Theorem required_fields :
  (forall msg row,
      row_values msg = Ok row ->
      station_code row <> "" /\ code_insee row <> "" /\ geo row <> ""
      /\ parse_due_date (due_date_value msg) = Some (due_date row))
  /\ (forall raw o out,
        main raw = Ok o -> In out (jsonl o) ->
        nonempty_text (get out "station_code") /\ nonempty_text (get out "due_date")).
Proof.
  split.
  - intros msg row Hrow.
    destruct (row_values_Ok msg row Hrow) as (-> & ? & ? & -> & ? & -> & ?). auto.
  - intros raw o out Hmain Hin.
    destruct (main_jsonl raw o Hmain) as (fieldnames & lines & Hj).
    rewrite Hj in Hin. apply In_omap in Hin as (line & _ & Hclean).
    eapply clean_required; [|exact Hclean].
    apply rename_keys_renamed.
Qed.

End RecordFacts.

(** *** On the inputs of the examples *)

Import Reference Examples.

(** C3, as stated, fails: the text of a decimal number. *)
Lemma int_conversions_differ :
  ~ (forall x : pyval, to_int x = to_int_or_none x).
Proof. intros H. specialize (H (PStr "12.0")). vm_compute in H. discriminate. Qed.



(** C5, as stated, fails: the station of the scenario has no INSEE
    code and no position, and is written all the same. *)
Lemma cleaner_record_without_insee :
  ~ (forall raw o out,
       main raw = Ok o -> In out (jsonl o) ->
       nonempty_text (get out "code_insee") /\ nonempty_text (get out "geo")).
Proof.
  intros H.
  destruct (main scenario) as [o|e] eqn:Hmain; [|vm_compute in Hmain; discriminate].
  assert (Hj : exists out, jsonl o = [out] /\ get out "code_insee" = PNone).
  { vm_compute in Hmain. injection Hmain as <-. eexists. split; reflexivity. }
  destruct Hj as (out & Hj & Hnone).
  destruct (H scenario o out Hmain) as [[s [Hs _]] _]; [rewrite Hj; simpl; auto|].
  congruence.
Qed.

Lemma required_fields_witness :
  (row_values msg_gare = Ok row_gare
   /\ station_code row_gare <> "" /\ code_insee row_gare <> "" /\ geo row_gare <> ""
   /\ parse_due_date (due_date_value msg_gare) = Some (due_date row_gare))
  /\ exists o out,
       main scenario = Ok o /\ In out (jsonl o)
       /\ nonempty_text (get out "station_code") /\ nonempty_text (get out "due_date").
Proof.
  assert (Hrow : row_values msg_gare = Ok row_gare) by (vm_compute; reflexivity).
  split.
  - split; [exact Hrow|]. apply (proj1 required_fields msg_gare row_gare Hrow).
  - destruct (main scenario) as [o|e] eqn:Hmain; [|vm_compute in Hmain; discriminate].
    assert (Hj : exists out, In out (jsonl o)).
    { vm_compute in Hmain. injection Hmain as <-. eexists. left. reflexivity. }
    destruct Hj as [out Hin]. exists o, out. split; [reflexivity|]. split; [exact Hin|].
    exact (proj2 required_fields scenario o out Hmain Hin).
Defined.

(** C2 on two messages for one station and one instant. *)
Lemma upsert_last_write_wins_witness :
  pk_unique []
  /\ row_values msg_gare = Ok row_gare
  /\ row_values msg_gare_full = Ok row_gare_full
  /\ primary_key row_gare = primary_key row_gare_full
  /\ exists conn1 conn2,
       insert_row true [] msg_gare = Ok conn1
       /\ insert_row true conn1 msg_gare_full = Ok conn2
       /\ rows_with (primary_key row_gare_full) conn2 = [row_gare_full]
       /\ pk_unique conn2
       /\ insert_row true conn1 msg_gare = Ok conn1
       /\ insert_row true conn2 msg_gare_full = Ok conn2.
Proof.
  assert (Hu : pk_unique []) by constructor.
  assert (H1 : row_values msg_gare = Ok row_gare) by (vm_compute; reflexivity).
  assert (H2 : row_values msg_gare_full = Ok row_gare_full) by (vm_compute; reflexivity).
  assert (Hk : primary_key row_gare = primary_key row_gare_full) by reflexivity.
  repeat (split; [assumption|]).
  exact (upsert_last_write_wins [] msg_gare msg_gare_full row_gare row_gare_full Hu H1 H2 Hk).
Defined.


(** C6 on a message without its position. *)
Lemma mandatory_fields_witness :
  geo_text msg_no_geo = ""
  /\ row_values msg_no_geo = Raise (ValueError "geo manquant")
  /\ insert_row true [row_gare] msg_no_geo = Raise (ValueError "geo manquant").
Proof.
  assert (Hg : row_values msg_no_geo = Raise (ValueError "geo manquant"))
    by (vm_compute; reflexivity).
  split; [vm_compute; reflexivity|]. split; [exact Hg|].
  destruct (mandatory_fields msg_no_geo) as (_ & _ & _ & _ & _ & _ & Hraise & _).
  apply (proj1 (proj2 (Hraise _ Hg))).
Defined.

(** One turn on a record that the store accepts, and on one that does
    not decode. *)
Lemma commit_iff_upsert_witness :
  (Py.loads payload_gare = Some (JObject msg_gare)
   /\ row_values msg_gare = Ok row_gare
   /\ table (loop_body empty_world (turn 7 payload_gare true)) = [row_gare]
   /\ committed (loop_body empty_world (turn 7 payload_gare true)) = Some 8
   /\ trace (loop_body empty_world (turn 7 payload_gare true))
      = [Stored 7; Committed 8; Printed (Insere (PStr "101") 7)])
  /\ (Py.loads "{" = None
      /\ table (loop_body empty_world (turn 7 "{" true)) = []
      /\ committed (loop_body empty_world (turn 7 "{" true)) = None
      /\ exists e,
           trace (loop_body empty_world (turn 7 "{" true))
           = [Printed (Erreur 7 e "{")]).
Proof.
  assert (Hl : Py.loads payload_gare = Some (JObject msg_gare))
    by (vm_compute; reflexivity).
  assert (Hrow : row_values msg_gare = Ok row_gare) by (vm_compute; reflexivity).
  split.
  - split; [exact Hl|]. split; [exact Hrow|].
    exact (proj1 (proj2 (commit_iff_upsert empty_world (turn 7 payload_gare true)))
             msg_gare row_gare Hl Hrow eq_refl).
  - split; [reflexivity|].
    apply (proj1 (proj2 (proj2 (commit_iff_upsert empty_world (turn 7 "{" true))))).
    intros (payload & row & Hnone & _). discriminate Hnone.
Defined.

(** The second scenario of the specification: a station is stored; the
    same station comes again without its position, is refused, and
    the row and the committed offset stay as they were; a payload that
    is not an object and one that is not JSON fare the same. *)
Example redelivery_without_geo :
  loop empty_world
       [ turn 0 payload_gare true; turn 1 payload_no_geo true;
         turn 2 "[1, 2]" true; turn 3 "{" true ]
  = {| table := [row_gare];
       committed := Some 1;
       trace :=
         [ Stored 0; Committed 1; Printed (Insere (PStr "101") 0);
           Printed (Erreur 1 (ValueError "geo manquant") payload_no_geo);
           Printed (Erreur 2 AttributeError "[1, 2]");
           Printed (Erreur 3 JSONDecodeError "{") ] |}.
Proof. vm_compute. reflexivity. Qed.

(** A store that does not acknowledge: nothing is committed, and the
    same record read again later is stored and committed. *)
Example store_failure_then_redelivery :
  loop empty_world [turn 0 payload_gare false; turn 0 payload_gare true]
  = {| table := [row_gare];
       committed := Some 1;
       trace :=
         [ Printed (Erreur 0 DatabaseError payload_gare);
           Stored 0; Committed 1; Printed (Insere (PStr "101") 0) ] |}.
Proof. vm_compute. reflexivity. Qed.

(** A count of zero under a key that has a fallback is read as [None],
    or gives way to the fallback; under a key read alone it is kept. *)
Example zero_count :
  row_values (message [ ("station_code", PStr "101");
                        ("due_date", PStr "2026-01-22 10:00:00");
                        ("capacity", PInt 0);
                        ("numdocksavailable", PInt 0);
                        ("numbikesavailable", PInt 0); ("bikes_available", PInt 5);
                        ("code_insee", PStr "75056"); ("geo", PStr "48.85,2.35") ])
  = Ok {| station_code := "101"; station_name := PNone; commune := PNone;
          capacity := PInt 0; docks_available := PNone; bikes_available := PInt 5;
          bikes_mechanical := PNone; bikes_ebike := PNone;
          is_installed := PNone; is_returning := PNone;
          due_date := instant 10 0; code_insee := "75056"; geo := "48.85,2.35" |}.
Proof. vm_compute. reflexivity. Qed.

End RecordFacts.

(** ** The table through a run of the loop *)
Module RunFacts.
Import Py PyFacts Consumer ConsumerFacts Startup.

(** An upsert leaves the rows under the other keys as they were. *)
Lemma rows_with_upsert_other key table new :
  primary_key new <> key -> rows_with key (upsert table new) = rows_with key table.
Proof.
  intros Hne. induction table as [|old rest IH]; simpl.
  - rewrite bool_decide_eq_false_2 by exact Hne. reflexivity.
  - destruct (decide (primary_key old = primary_key new)) as [Heq|Hneq]; simpl.
    + rewrite on_duplicate_key_update_same by exact Heq.
      rewrite !bool_decide_eq_false_2 by congruence. reflexivity.
    + rewrite IH. reflexivity.
Qed.

Lemma fold_upsert_pk_unique rows table :
  pk_unique table -> pk_unique (fold_left upsert rows table).
Proof.
  revert table. induction rows as [|r rows IH]; intros table Hu; simpl; [exact Hu|].
  apply IH, upsert_pk_unique, Hu.
Qed.

Lemma find_app {A} (f : A -> bool) (l1 l2 : list A) :
  List.find f (l1 ++ l2) = match List.find f l1 with Some x => Some x | None => List.find f l2 end.
Proof.
  induction l1 as [|x l1 IH]; simpl; [reflexivity|]. destruct (f x); auto.
Qed.

Lemma last_with_cons key r rows :
  last_with key (r :: rows) =
  match last_with key rows with
  | Some r' => Some r'
  | None => if bool_decide (primary_key r = key) then Some r else None
  end.
Proof. unfold last_with. simpl. rewrite find_app. simpl. reflexivity. Qed.

(** After a sequence of upserts a key holds the last row written under
    it, or what it held before. *)
Lemma rows_with_fold_upsert key rows table :
  pk_unique table ->
  rows_with key (fold_left upsert rows table) =
  match last_with key rows with
  | Some r => [r]
  | None => rows_with key table
  end.
Proof.
  revert table. induction rows as [|r rows IH]; intros table Hu; simpl; [reflexivity|].
  rewrite IH by apply upsert_pk_unique, Hu. rewrite last_with_cons.
  destruct (last_with key rows); [reflexivity|].
  destruct (bool_decide_reflect (primary_key r = key)) as [<-|Hne].
  - apply rows_with_upsert, Hu.
  - apply rows_with_upsert_other, Hne.
Qed.

(** Two tables with the same keys in the same order and the same rows
    under each key are the same. *)
Lemma table_ext (t1 t2 : list Row) :
  pk_unique t1 ->
  map primary_key t1 = map primary_key t2 ->
  (forall key, rows_with key t1 = rows_with key t2) ->
  t1 = t2.
Proof.
  unfold pk_unique. revert t2.
  induction t1 as [|r1 t1 IH]; intros [|r2 t2] Hu Hk Hr; try discriminate; [reflexivity|].
  assert (Hk1 : primary_key r1 = primary_key r2)
    by exact (f_equal (hd (primary_key r1)) Hk).
  apply (f_equal (@tl _)) in Hk. simpl in Hk.
  inversion Hu as [|? ? Hnin Hu']; subst.
  assert (Hnin2 : ~ In (primary_key r2) (map primary_key t2)) by (rewrite <- Hk1, <- Hk; exact Hnin).
  assert (Heq : r1 = r2).
  { specialize (Hr (primary_key r1)). simpl in Hr.
    rewrite bool_decide_eq_true_2 in Hr by reflexivity.
    rewrite (bool_decide_eq_true_2 _ (eq_sym Hk1)) in Hr. congruence. }
  subst r2. f_equal. apply IH; [exact Hu'|exact Hk|].
  intros key. destruct (decide (primary_key r1 = key)) as [Hkey|Hne].
  - subst key. rewrite !rows_with_absent by assumption. reflexivity.
  - specialize (Hr key). simpl in Hr.
    rewrite !bool_decide_eq_false_2 in Hr by exact Hne. exact Hr.
Qed.

(** The keys of a table whose keys all stand in it already. *)
Lemma fold_upsert_keys_known rows table :
  (forall r, In r rows -> In (primary_key r) (map primary_key table)) ->
  map primary_key (fold_left upsert rows table) = map primary_key table.
Proof.
  revert table. induction rows as [|r rows IH]; intros table Hin; simpl; [reflexivity|].
  assert (Hk : map primary_key (upsert table r) = map primary_key table).
  { destruct (upsert_keys table r) as [H|[Hnin _]]; [exact H|].
    exfalso. apply Hnin, Hin. simpl. auto. }
  rewrite IH; [exact Hk|]. intros r' Hr'. rewrite Hk. apply Hin. simpl. auto.
Qed.

(** A key stays in the table through an upsert. *)
Lemma upsert_keeps_keys key table new :
  In key (map primary_key table) -> In key (map primary_key (upsert table new)).
Proof.
  destruct (upsert_keys table new) as [->|[_ ->]]; [auto|].
  intros H. apply in_or_app. auto.
Qed.

Lemma upsert_has_key table new : In (primary_key new) (map primary_key (upsert table new)).
Proof.
  induction table as [|old rest IH]; simpl; [auto|].
  destruct (decide (primary_key old = primary_key new)) as [Heq|Hne]; simpl.
  - left. rewrite on_duplicate_key_update_same by exact Heq. reflexivity.
  - auto.
Qed.

Lemma fold_upsert_keeps_keys key rows table :
  In key (map primary_key table) -> In key (map primary_key (fold_left upsert rows table)).
Proof.
  revert table. induction rows as [|r rows IH]; intros table Hin; simpl; [exact Hin|].
  apply IH, upsert_keeps_keys, Hin.
Qed.

Lemma fold_upsert_has_keys rows table r :
  In r rows -> In (primary_key r) (map primary_key (fold_left upsert rows table)).
Proof.
  revert table. induction rows as [|r' rows IH]; intros table; simpl; [tauto|].
  intros [->|Hin]; [|apply IH, Hin].
  apply fold_upsert_keeps_keys, upsert_has_key.
Qed.

(** Writing a sequence of rows a second time changes nothing. *)
Lemma fold_upsert_twice rows table :
  pk_unique table ->
  fold_left upsert rows (fold_left upsert rows table) = fold_left upsert rows table.
Proof.
  intros Hu.
  assert (Hu1 : pk_unique (fold_left upsert rows table)) by apply fold_upsert_pk_unique, Hu.
  apply table_ext.
  - apply fold_upsert_pk_unique, Hu1.
  - apply fold_upsert_keys_known. intros r Hr. apply fold_upsert_has_keys, Hr.
  - intros key. rewrite !rows_with_fold_upsert by assumption.
    destruct (last_with key rows); reflexivity.
Qed.

Section RunFacts.
Context `{!Builtins} `{!Datetime} `{!Json}.

(** The table after a turn, by the row that the turn stores. *)
Lemma loop_body_table w t :
  table (loop_body w t) =
  match stored_row t with
  | Some row => upsert (table w) row
  | None => table w
  end.
Proof.
  unfold loop_body, process, insert_row, execute, stored_row.
  destruct (loads (value (record t))) as [[payload|]|]; try reflexivity.
  destruct (row_values payload) as [row|e]; [|reflexivity].
  destruct (store_ack t); reflexivity.
Qed.

(** The table after a run: the upserts of the rows stored, in order. *)
Lemma loop_table turns w :
  table (loop w turns) = fold_left upsert (omap stored_row turns) (table w).
Proof.
  revert w. induction turns as [|t turns IH]; intros w; simpl; [reflexivity|].
  fold (loop (loop_body w t) turns). rewrite IH, loop_body_table.
  destruct (stored_row t); reflexivity.
Qed.

Lemma loop_app w turns1 turns2 : loop w (turns1 ++ turns2) = loop (loop w turns1) turns2.
Proof. unfold loop. apply fold_left_app. Qed.

Lemma loop_body_committed w t :
  committed (loop_body w t) =
  match stored_row t with
  | Some _ => Some (offset (record t) + 1)
  | None => committed w
  end.
Proof.
  unfold loop_body, process, insert_row, execute, stored_row.
  destruct (loads (value (record t))) as [[payload|]|]; try reflexivity.
  destruct (row_values payload) as [row|e]; [|reflexivity].
  destruct (store_ack t); reflexivity.
Qed.

Lemma loop_body_block w t :
  exists block, trace (loop_body w t) = trace w ++ block /\ turn_block t block.
Proof.
  unfold loop_body, turn_block, stored_row, process, insert_row, execute.
  destruct (loads (value (record t))) as [[payload|]|]; simpl;
    [|eexists; split; eauto..].
  destruct (row_values payload) as [row|e]; simpl; [|eexists; split; eauto].
  destruct (store_ack t); simpl; eexists; split; eauto.
Qed.

Lemma row_values_well_formed msg row : row_values msg = Ok row -> well_formed row.
Proof.
  intros Hrow. destruct (row_values_Ok msg row Hrow) as (Hsc & ? & _ & Hci & ? & Hg & ?).
  assert (Hint : forall x, int_or_null (to_int_or_none x)).
  { intros x. unfold to_int_or_none. destruct (is_none x); [exact I|].
    destruct (int_of x); exact I. }
  rewrite row_values_cases in Hrow.
  destruct (String.eqb (station_code_text msg) ""); [discriminate|].
  destruct (parse_due_date (due_date_value msg)); [|discriminate].
  destruct (String.eqb (code_insee_text msg) ""); [discriminate|].
  destruct (String.eqb (geo_text msg) ""); [discriminate|].
  injection Hrow as <-. simpl in *.
  split; simpl; auto; split; auto;
    unfold station_code_text, code_insee_text, geo_text; apply strip_idemp.
Qed.

Lemma upsert_well_formed table new :
  Forall well_formed table -> well_formed new -> Forall well_formed (upsert table new).
Proof.
  intros Ht Hn. induction Ht as [|old rest Hold Hrest IH]; simpl.
  - constructor; [exact Hn|constructor].
  - destruct (decide (primary_key old = primary_key new)) as [Heq|Hne].
    + constructor; [|exact Hrest].
      rewrite on_duplicate_key_update_same by exact Heq. exact Hn.
    + constructor; assumption.
Qed.

Lemma stored_row_well_formed t row : stored_row t = Some row -> well_formed row.
Proof.
  unfold stored_row.
  destruct (loads (value (record t))) as [[payload|]|]; try discriminate.
  destruct (row_values payload) as [row'|e] eqn:Hrow; [|discriminate].
  destruct (store_ack t); [|discriminate].
  intros [= <-]. eapply row_values_well_formed, Hrow.
Qed.

End RunFacts.
End RunFacts.

(** ** What a run of the consumer does to the table and to the topic *)
Module Run.
Import Py PyFacts Consumer ConsumerFacts Startup RunFacts.

Section Run.
Context `{!Builtins} `{!Datetime} `{!Json}.

(** X1. After any run of the loop a key of the table holds the row of
    the last record stored under it, and what it held before the run
    when no record was stored under it. *)
Theorem run_last_write_wins (w : World) (turns : list Turn) (key : string * datetime) :
  pk_unique (table w) ->
  rows_with key (table (loop w turns)) =
  match last_with key (omap stored_row turns) with
  | Some row => [row]
  | None => rows_with key (table w)
  end.
Proof. intros Hu. rewrite loop_table. apply rows_with_fold_upsert, Hu. Qed.

(** X2. A second reading of records in which the same rows are stored
    in the same order as in the first, as when the same records are
    delivered again and the store answers as it did, leaves the table
    as the first reading left it: no row is added and none is
    changed. *)
Theorem replay_changes_nothing (w : World) (turns again : list Turn) :
  pk_unique (table w) ->
  omap stored_row again = omap stored_row turns ->
  table (loop (loop w turns) again) = table (loop w turns)
  /\ table (loop w (turns ++ turns)) = table (loop w turns).
Proof.
  intros Hu Hsame.
  rewrite loop_app, !(loop_table _ (loop w turns)), Hsame, loop_table.
  split; apply fold_upsert_twice, Hu.
Qed.

(** X3. Two records stored under different keys may come in either
    order: the table holds the same rows. *)
Theorem different_keys_commute (w : World) (t1 t2 : Turn) (row1 row2 : Row) :
  pk_unique (table w) ->
  stored_row t1 = Some row1 -> stored_row t2 = Some row2 ->
  primary_key row1 <> primary_key row2 ->
  Permutation (table (loop w [t1; t2])) (table (loop w [t2; t1])).
Proof.
  intros Hu Hs1 Hs2 Hne.
  assert (Hrows : forall key,
            rows_with key (table (loop w [t1; t2])) = rows_with key (table (loop w [t2; t1]))).
  { intros key. rewrite !loop_table, !rows_with_fold_upsert by exact Hu.
    simpl. rewrite Hs1, Hs2. simpl.
    rewrite !last_with_cons. unfold last_with. simpl.
    destruct (bool_decide_reflect (primary_key row1 = key)) as [Ha|Ha],
             (bool_decide_reflect (primary_key row2 = key)) as [Hb|Hb];
      try reflexivity. congruence. }
  assert (Hnd : forall turns, List.NoDup (table (loop w turns))).
  { intros turns. eapply NoDup_map_inv. apply loop_pk_unique, Hu. }
  apply Stdlib.Sorting.Permutation.NoDup_Permutation; [apply Hnd|apply Hnd|].
  intros r.
  assert (Hin : forall t, In r t <-> In r (rows_with (primary_key r) t)).
  { intros t. unfold rows_with. rewrite filter_In, bool_decide_eq_true. tauto. }
  rewrite (Hin (table (loop w [t1; t2]))), (Hin (table (loop w [t2; t1]))), Hrows.
  reflexivity.
Qed.

(** X4. The loop keeps the table in order: the primary key stays a
    key, and every row has a station code, an INSEE code and a
    position that are stripped and not empty, and integers or [NULL]
    in its integer columns. *)
Theorem table_invariant (w : World) (turns : list Turn) :
  pk_unique (table w) -> Forall well_formed (table w) ->
  pk_unique (table (loop w turns)) /\ Forall well_formed (table (loop w turns)).
Proof.
  intros Hu Hwf. rewrite loop_table. split; [apply fold_upsert_pk_unique, Hu|].
  clear Hu. revert Hwf. generalize (table w).
  induction turns as [|t turns IH]; intros table Hwf; simpl; [exact Hwf|].
  destruct (stored_row t) as [row|] eqn:Hrow; simpl; [|apply IH, Hwf].
  apply IH, upsert_well_formed; [exact Hwf|].
  eapply stored_row_well_formed, Hrow.
Qed.

(** X5. The trace of a run is one block for each record, in order: for
    a record that is stored (its payload decodes to an object, maps to
    a row, and the store acknowledges), the acknowledgement of the
    store, then the commit of the offset after it, then a line; for
    any other record, and only then, one line of error with its
    offset and its payload. No offset is committed but right after its
    record was stored, and no record goes without a line. *)
Theorem trace_blocks (w : World) (turns : list Turn) :
  exists blocks,
    trace (loop w turns) = trace w ++ concat blocks /\ Forall2 turn_block turns blocks.
Proof.
  revert w. induction turns as [|t turns IH]; intros w; simpl.
  - exists []. simpl. rewrite app_nil_r. split; [reflexivity|constructor].
  - fold (loop (loop_body w t) turns).
    destruct (IH (loop_body w t)) as (blocks & Htr & Hbl).
    destruct (loop_body_block w t) as (block & Hb & Hturn).
    exists (block :: blocks). simpl. rewrite Htr, Hb, <- app_assoc.
    split; [reflexivity|constructor; assumption].
Qed.

(** X6. The offset committed after a run is one past the last record
    that was stored, whatever became of the records before it, and the
    offset committed before the run when no record was stored. *)
Theorem committed_position (w : World) (turns : list Turn) :
  committed (loop w turns) =
  match last (omap (fun t => (fun _ => offset (record t) + 1) <$> stored_row t) turns) with
  | Some position => Some position
  | None => committed w
  end.
Proof.
  revert w. induction turns as [|t turns IH]; intros w; simpl; [reflexivity|].
  fold (loop (loop_body w t) turns). rewrite IH, loop_body_committed.
  destruct (stored_row t) as [row|]; simpl; [|reflexivity].
  rewrite last_cons. destruct (last _); reflexivity.
Qed.

(** X7. [main] never drops a row: a key of the table at start-up is a
    key of the table after the run, a row under a key that no stored
    record bears is still there, and the table has not shrunk. *)
Theorem main_keeps_rows (attempts : nat -> attempt) (database : option (list Row))
    (group_offset : option Z) (turns : list Turn) (w : World) (events : list ConnEvent) :
  pk_unique (ensure_table database) ->
  main attempts database group_offset turns = (Ok w, events) ->
  (forall r, In r (ensure_table database) ->
     In (primary_key r) (map primary_key (table w))
     /\ (last_with (primary_key r) (omap stored_row turns) = None -> In r (table w)))
  /\ (length (ensure_table database) <= length (table w))%nat.
Proof.
  intros Hu. unfold main.
  destruct (connect_mysql_with_retry attempts 30 2) as [[i|e] evs]; [|discriminate].
  intros [= <- _]. rewrite loop_table. simpl.
  generalize (omap stored_row turns). intros rows. split.
  - intros r Hr. split.
    + apply fold_upsert_keeps_keys, in_map, Hr.
    + intros Hlast.
      assert (Hin : In r (rows_with (primary_key r) (fold_left upsert rows (ensure_table database)))).
      { rewrite rows_with_fold_upsert, Hlast by exact Hu.
        unfold rows_with. apply filter_In. split; [exact Hr|].
        apply bool_decide_eq_true_2. reflexivity. }
      unfold rows_with in Hin. apply filter_In in Hin. tauto.
  - clear Hu. generalize (ensure_table database). clear.
    induction rows as [|r rows IH]; intros table; simpl; [lia|].
    etransitivity; [|apply IH].
    clear. induction table as [|old rest IH]; simpl; [lia|].
    destruct (decide (primary_key old = primary_key r)); simpl; lia.
Qed.

End Run.

(** *** The connection *)

Lemma connect_from_spec attempts retries delay todo : 0 <= delay -> forall i,
  match connect_from attempts retries delay i todo with
  | (Ok k, events) =>
      (i <= k < i + todo)%nat /\ attempts k = Connected
      /\ (forall j, (i <= j < k)%nat -> exists e, attempts j = Refused e)
      /\ echecs events = (k - i)%nat /\ slept events = Z.of_nat (k - i) * delay
  | (Raise e, events) =>
      (e = RuntimeError "Impossible de se connecter à MySQL"
       /\ (forall j, (i <= j < i + todo)%nat -> exists e', attempts j = Refused e')
       /\ echecs events = todo /\ slept events = Z.of_nat todo * delay)
      \/ (exists k, (i <= k < i + todo)%nat /\ attempts k = Crashed e
           /\ (forall j, (i <= j < k)%nat -> exists e', attempts j = Refused e')
           /\ echecs events = (k - i)%nat /\ slept events = Z.of_nat (k - i) * delay)
  end.
Proof.
  intros Hdelay. induction todo as [|todo IH]; intros i; simpl.
  - left. repeat split; try reflexivity; try (intros j Hj; lia).
  - destruct (attempts i) as [|e|e] eqn:Hi.
    + replace (i - i)%nat with 0%nat by lia.
      repeat split; try lia; try assumption; try (intros j Hj; lia).
    + destruct (Z.ltb_spec delay 0) as [Hneg|_]; [lia|].
      specialize (IH (S i)).
      destruct (connect_from attempts retries delay (S i) todo) as [[k|e'] events].
      * destruct IH as (Hk & Hc & Hr & He & Hs).
        split; [lia|]. split; [exact Hc|]. split.
        { intros j Hj. destruct (Nat.eq_dec j i) as [->|]; [eauto|apply Hr; lia]. }
        unfold echecs, slept in *. simpl. rewrite He, Hs.
        replace (k - i)%nat with (S (k - S i)) by lia. split; [reflexivity|lia].
      * destruct IH as [(-> & Hr & He & Hs)|(k & Hk & Hc & Hr & He & Hs)].
        { left. split; [reflexivity|]. split.
          { intros j Hj. destruct (Nat.eq_dec j i) as [->|]; [eauto|apply Hr; lia]. }
          unfold echecs, slept in *. simpl. rewrite He, Hs. split; [reflexivity|lia]. }
        { right. exists k. split; [lia|]. split; [exact Hc|]. split.
          { intros j Hj. destruct (Nat.eq_dec j i) as [->|]; [eauto|apply Hr; lia]. }
          unfold echecs, slept in *. simpl. rewrite He, Hs.
          replace (k - i)%nat with (S (k - S i)) by lia. split; [reflexivity|lia]. }
    + right. exists i. replace (i - i)%nat with 0%nat by lia.
      repeat split; try lia; try assumption; try (intros j Hj; lia).
Qed.

(** X8. [connect_mysql_with_retry] returns the first call of [connect]
    that succeeds, among the first [retries] calls: every call before
    it was refused, printed one line and was followed by [delay]
    seconds of sleep. When all [retries] calls are refused it raises
    [RuntimeError], having slept after the last refusal too; with
    [retries] at zero or less it raises at once. An exception that is
    not a [mysql.connector.Error] is not caught. ([delay] is not
    negative: [time.sleep] would refuse it.) *)
Theorem connect_retry (attempts : nat -> attempt) (retries delay : Z) :
  0 <= delay ->
  match connect_mysql_with_retry attempts retries delay with
  | (Ok k, events) =>
      Z.of_nat k < retries /\ attempts k = Connected
      /\ (forall j, (j < k)%nat -> exists e, attempts j = Refused e)
      /\ echecs events = k /\ slept events = Z.of_nat k * delay
  | (Raise e, events) =>
      (e = RuntimeError "Impossible de se connecter à MySQL"
       /\ (forall j, Z.of_nat j < retries -> exists e', attempts j = Refused e')
       /\ echecs events = Z.to_nat retries /\ slept events = Z.max 0 retries * delay)
      \/ (exists k, Z.of_nat k < retries /\ attempts k = Crashed e
           /\ (forall j, (j < k)%nat -> exists e', attempts j = Refused e')
           /\ echecs events = k /\ slept events = Z.of_nat k * delay)
  end.
Proof.
  intros Hdelay. unfold connect_mysql_with_retry.
  pose proof (connect_from_spec attempts retries delay (Z.to_nat retries) Hdelay 0) as Hspec.
  destruct (connect_from attempts retries delay 0 (Z.to_nat retries)) as [[k|e] events].
  - destruct Hspec as (Hk & Hc & Hr & He & Hs). rewrite Nat.sub_0_r in He, Hs.
    repeat split; try assumption; [lia|]. intros j Hj. apply Hr. lia.
  - destruct Hspec as [(-> & Hr & He & Hs)|(k & Hk & Hc & Hr & He & Hs)].
    + left. repeat split; try assumption; [|lia]. intros j Hj. apply Hr. lia.
    + right. exists k. rewrite Nat.sub_0_r in He, Hs.
      repeat split; try assumption; [lia|]. intros j Hj. apply Hr. lia.
Qed.

End Run.

(** ** What [insert_row] reads of a message *)
Module Mapping.
Import Py PyFacts Consumer ConsumerFacts Startup Text.

Ltac solid_bytes :=
  unfold solid, space2, space3; intros Hs;
  apply andb_true_iff in Hs as [Hlt Hsp]; apply N.ltb_lt in Hlt;
  repeat match goal with
  | |- context [(?x =? ?n)%N] =>
      lazymatch x with
      | context [byte _] => destruct (N.eqb_spec x n); [try lia|]
      end
  | |- context [(?n <=? ?x)%N] =>
      lazymatch x with
      | context [byte _] => destruct (N.leb_spec n x); [try lia|]
      end
  end; simpl; rewrite ?andb_false_r; try reflexivity.

Lemma space2_solid_l f b : solid f = true -> space2 f b = false.
Proof. solid_bytes. Qed.

Lemma space2_solid_r a f : solid f = true -> space2 a f = false.
Proof. solid_bytes. Qed.

Lemma space3_solid_1 f b c : solid f = true -> space3 f b c = false.
Proof. solid_bytes. Qed.

Lemma space3_solid_2 a f c : solid f = true -> space3 a f c = false.
Proof. solid_bytes. Qed.

Lemma space3_solid_3 a b f : solid f = true -> space3 a b f = false.
Proof. solid_bytes. Qed.

Lemma space1_solid f : solid f = true -> space1 f = false.
Proof. unfold solid. intros [_ H]%andb_true_iff. apply negb_true_iff, H. Qed.

Lemma drop_spaces_solid_head (back : bool) (f : ascii) (r : list ascii) :
  solid f = true ->
  (forall b, (if back then space2 b f else space2 f b) = false) ->
  (forall b c, (if back then space3 c b f else space3 f b c) = false) ->
  drop_spaces back (f :: r) = f :: r.
Proof.
  intros Hf H2 H3. apply drop_spaces_fixed. simpl.
  rewrite (space1_solid f Hf). destruct r as [|b [|c r]]; simpl; rewrite ?H2, ?H3; reflexivity.
Qed.

Lemma drop_front_solid f r : solid f = true -> drop_spaces false (f :: r) = f :: r.
Proof.
  intros Hf. apply drop_spaces_solid_head; [exact Hf|..]; intros.
  - apply space2_solid_l, Hf.
  - apply space3_solid_1, Hf.
Qed.

Lemma drop_back_solid l r : solid l = true -> drop_spaces true (l :: r) = l :: r.
Proof.
  intros Hl. apply drop_spaces_solid_head; [exact Hl|..]; intros.
  - apply space2_solid_r, Hl.
  - apply space3_solid_3, Hl.
Qed.

(** The white space before a text is dropped without a look at what
    follows a solid byte. *)
Lemma drop_front_app f r n : solid f = true -> forall ls, (length ls <= n)%nat ->
  drop_spaces false (ls ++ f :: r) = drop_spaces false ls ++ f :: r.
Proof.
  intros Hf. induction n as [|n IH]; intros ls Hn.
  { destruct ls; simpl in Hn; [|lia]. apply drop_front_solid, Hf. }
  destruct ls as [|a ls]; [apply drop_front_solid, Hf|].
  simpl in Hn. cbn [app]. cbn [drop_spaces].
  destruct (space1 a) eqn:Ha; [apply IH; lia|].
  destruct ls as [|b ls]; cbn [app].
  { rewrite (space2_solid_r a f Hf).
    destruct r as [|c r]; [reflexivity|]. rewrite (space3_solid_2 a f c Hf). reflexivity. }
  simpl in Hn.
  destruct (space2 a b) eqn:Hb; [apply IH; lia|].
  destruct ls as [|c ls]; cbn [app].
  { rewrite (space3_solid_3 a b f Hf). reflexivity. }
  simpl in Hn.
  destruct (space3 a b c) eqn:Hc; [apply IH; lia|]. reflexivity.
Qed.

Lemma list_ascii_of_string_app s t :
  list_ascii_of_string (s +:+ t) = list_ascii_of_string s ++ list_ascii_of_string t.
Proof.
  induction s as [|a s IH]; [reflexivity|].
  change (String a s +:+ t) with (String a (s +:+ t)). simpl. rewrite IH. reflexivity.
Qed.

Lemma string_of_list_ascii_app l1 l2 :
  string_of_list_ascii (l1 ++ l2) = string_of_list_ascii l1 +:+ string_of_list_ascii l2.
Proof.
  induction l1 as [|a l1 IH]; [reflexivity|]. simpl. rewrite IH. reflexivity.
Qed.

(** Stripping a text that ends in a text with solid ends strips its
    head only. *)
Lemma strip_app_solid s t :
  solid_ends (list_ascii_of_string t) ->
  strip (s +:+ t) =
  string_of_list_ascii (drop_spaces false (list_ascii_of_string s)) +:+ t.
Proof.
  intros (f & r & l & r' & Ht & Hrev & Hf & Hl). unfold strip.
  rewrite list_ascii_of_string_app, Ht.
  rewrite (drop_front_app f r _ Hf _ (le_n _)).
  rewrite rev_app_distr, <- Ht, Hrev. cbn [app].
  rewrite (drop_back_solid l _ Hl).
  change (l :: r' ++ rev (drop_spaces false (list_ascii_of_string s)))
    with ((l :: r') ++ rev (drop_spaces false (list_ascii_of_string s))).
  rewrite <- Hrev, <- rev_app_distr, rev_involutive, string_of_list_ascii_app.
  rewrite string_of_list_ascii_of_string. reflexivity.
Qed.

Section Mapping.
Context `{!Builtins} `{!Datetime}.

(** X9. A date that ends in [Z] and the same date that ends in
    [+00:00] are read alike, whatever the parsers make of them. *)
Theorem zulu_is_utc (s : string) :
  parse_due_date (PStr (s +:+ "Z")) = parse_due_date (PStr (s +:+ "+00:00")).
Proof.
  unfold parse_due_date. simpl.
  rewrite !strip_app_solid, !replace_app;
    [reflexivity|exists "+"%char; repeat eexists; reflexivity
                |exists "Z"%char; repeat eexists; reflexivity].
Qed.

(** X10. [insert_row] reads a message through the keys it names and
    through nothing else: two messages that agree on these keys, a key
    that is absent counting as one that holds [null], give the same row
    or the same error. Members under other keys are ignored. *)
Theorem unread_members_ignored (msg1 msg2 : gmap string pyval) :
  Forall (fun key => msg_get msg1 key = msg_get msg2 key) read_keys ->
  row_values msg1 = row_values msg2.
Proof.
  intros Hall.
  assert (Hk : forall key, In key read_keys -> msg_get msg1 key = msg_get msg2 key)
    by (apply List.Forall_forall, Hall).
  unfold row_values. cbv zeta.
  repeat match goal with
  | |- context [msg_get msg1 ?k] =>
      rewrite (Hk k) by (unfold read_keys; simpl; repeat first [left; reflexivity|right])
  end.
  reflexivity.
Qed.

End Mapping.
End Mapping.

(** ** The two conversions to an integer *)
Module Conversions.
Import Py PyFacts Cleaner Consumer Codec Text Mapping.

(** A byte that is not white space is kept by [strip]. *)
Lemma drop_spaces_In back c n : solid c = true -> forall s, (length s <= n)%nat ->
  In c s -> In c (drop_spaces back s).
Proof.
  intros Hc. induction n as [|n IH]; intros s Hn Hin.
  { destruct s; [destruct Hin|simpl in Hn; lia]. }
  destruct s as [|a r]; [destruct Hin|]. simpl in Hn. cbn [drop_spaces].
  destruct (space1 a) eqn:Ha.
  { apply IH; [lia|]. destruct Hin as [->|Hin]; [|exact Hin].
    rewrite (space1_solid c Hc) in Ha. discriminate. }
  destruct r as [|b r2]; [exact Hin|]. simpl in Hn.
  destruct (if back then space2 b a else space2 a b) eqn:Hb.
  { apply IH; [lia|]. destruct Hin as [->|[->|Hin]]; [| |exact Hin]; destruct back;
      rewrite ?(space2_solid_l c _ Hc), ?(space2_solid_r _ c Hc) in Hb; discriminate. }
  destruct r2 as [|d r3]; [exact Hin|]. simpl in Hn.
  destruct (if back then space3 d b a else space3 a b d) eqn:Hd; [|exact Hin].
  apply IH; [lia|]. destruct Hin as [->|[->|[->|Hin]]]; [| | |exact Hin]; destruct back;
    rewrite ?(space3_solid_1 c _ _ Hc), ?(space3_solid_2 _ c _ Hc),
            ?(space3_solid_3 _ _ c Hc) in Hd; discriminate.
Qed.

Lemma strip_In c s : solid c = true ->
  In c (list_ascii_of_string s) -> In c (list_ascii_of_string (strip s)).
Proof.
  intros Hc Hin. unfold strip. rewrite list_ascii_of_string_of_list_ascii.
  apply in_rev. rewrite rev_involutive.
  apply (drop_spaces_In true c _ Hc _ (le_n _)). apply in_rev. rewrite rev_involutive.
  apply (drop_spaces_In false c _ Hc _ (le_n _)), Hin.
Qed.

(** A text read to its end by [digitpart] is made of digits and
    underscores. *)
Lemma digitpart_chars s : forall after ds, digitpart after s = (ds, EmptyString) ->
  forall c, In c (list_ascii_of_string s) -> digit c <> None \/ c = "_"%char.
Proof.
  induction s as [|a r IH]; intros after ds Hd c Hin; [destruct Hin|].
  simpl in Hd. destruct (digit a) as [d|] eqn:Ha.
  - destruct (digitpart true r) as [ds' rest] eqn:Hr. injection Hd as _ ->.
    destruct Hin as [<-|Hin]; [left; rewrite Ha; discriminate|].
    apply (IH _ _ Hr c Hin).
  - destruct (after && Ascii.eqb a "_") eqn:Hu; [|discriminate].
    apply andb_true_iff in Hu as [_ Hu%Ascii.eqb_eq].
    destruct r as [|b r']; [discriminate|].
    destruct (digit b); [|discriminate].
    destruct Hin as [<-|Hin]; [right; exact Hu|].
    apply (IH _ _ Hd c Hin).
Qed.

Lemma sign_cases t neg body :
  sign t = (neg, body) ->
  t = body \/ exists a, (a = "+"%char \/ a = "-"%char) /\ t = String a body.
Proof.
  destruct t as [|a r]; simpl; [intros [= _ <-]; auto|].
  destruct a as [[] [] [] [] [] [] [] []]; intros [= _ <-]; eauto.
Qed.

(** [int] reads no text that holds a point. *)
Lemma int_of_str_point s :
  In "."%char (list_ascii_of_string s) -> int_of_str s = None.
Proof.
  intros Hin. apply (strip_In "." s eq_refl) in Hin. unfold int_of_str.
  destruct (sign (strip s)) as [neg body] eqn:Hs.
  assert (Hb : In "."%char (list_ascii_of_string body)).
  { destruct (sign_cases _ _ _ Hs) as [<-|(a & Ha & Ht)]; [exact Hin|].
    rewrite Ht in Hin. destruct Hin as [Heq|Hin]; [|exact Hin].
    destruct Ha as [->| ->]; discriminate Heq. }
  destruct (digitpart false body) as [ds rest] eqn:Hd.
  destruct ds as [|d ds]; [reflexivity|]. destruct rest; [|reflexivity].
  destruct (digitpart_chars _ _ _ Hd "."%char Hb) as [Hdig|Hu].
  - exfalso. apply Hdig. reflexivity.
  - discriminate Hu.
Qed.

(** [int] of a float is its truncation toward zero. *)
Lemma int_of_float_truncates negative m e :
  int_of_float (S754_finite negative m e) = Some (truncate_toward_zero negative m e).
Proof.
  unfold int_of_float, truncate_toward_zero. f_equal.
  destruct (Z.leb_spec 0 e) as [He|He].
  - rewrite (Z.max_r 0 e He), (Z.max_l 0 (- e)) by lia.
    rewrite Z.pow_0_r, Z.quot_1_r. destruct negative; simpl cond_Zopp; lia.
  - rewrite (Z.max_l 0 e), (Z.max_r 0 (- e)) by lia.
    rewrite Z.pow_0_r, Z.mul_1_r, Z.shiftr_div_pow2 by lia.
    assert (Hp : 0 < 2 ^ (- e)) by (apply Z.pow_pos_nonneg; lia).
    destruct negative; simpl cond_Zopp.
    + rewrite Z.quot_opp_l by lia. rewrite Z.quot_div_nonneg by lia. reflexivity.
    + rewrite Z.quot_div_nonneg by lia. reflexivity.
Qed.

Section Conversions.
Context `{!Builtins}.

(** C3, as amended. The two conversions follow one policy and are two
    functions. Both give [None] for [None] and for a text that is
    empty once stripped, both give an integer or [None] and never
    fail, and give [None] where their own reading of the value fails.
    [to_int] reads the text of its argument as a float and truncates
    it toward zero; [to_int_or_none] is the conversion [int]: an
    integer is kept, a float is truncated toward zero, and a text with
    a point is not read at all, so the text [12.0] is 12 to the first
    and [None] to the second. *)
Theorem int_conversions (x : pyval) :
  (is_none x = true -> to_int x = PNone /\ to_int_or_none x = PNone)
  /\ (forall s, x = PStr s -> strip s = "" ->
        to_int x = PNone /\ to_int_or_none x = PNone)
  /\ (to_int x = PNone \/ exists n, to_int x = PInt n)
  /\ (to_int_or_none x = PNone \/ exists n, to_int_or_none x = PInt n)
  /\ (float_of_str (strip (str x)) ≫= int_of_float = None -> to_int x = PNone)
  /\ (int_of x = None -> to_int_or_none x = PNone)
  /\ (forall negative m e,
        is_none x = false ->
        float_of_str (strip (str x)) = Some (S754_finite negative m e) ->
        to_int x = PInt (truncate_toward_zero negative m e))
  /\ (forall negative,
        is_none x = false ->
        float_of_str (strip (str x)) = Some (S754_zero negative) ->
        to_int x = PInt 0)
  /\ to_int_or_none x = int_or_none (int_of x)
  /\ (forall n, x = PInt n -> to_int_or_none x = PInt n)
  /\ (forall negative m e, x = PFloat (S754_finite negative m e) ->
        to_int_or_none x = PInt (truncate_toward_zero negative m e))
  /\ (forall s, x = PStr s -> In "."%char (list_ascii_of_string s) ->
        to_int_or_none x = PNone)
  /\ (to_int (PStr "12.0") = PInt 12 /\ to_int_or_none (PStr "12.0") = PNone)
  /\ (to_int (PStr "12.7") = PInt 12 /\ to_int (PStr " -12.7 ") = PInt (-12))
  /\ (to_int (PStr "12") = PInt 12 /\ to_int_or_none (PStr " 12 ") = PInt 12
      /\ to_int_or_none (PStr "-7") = PInt (-7)).
Proof.
  assert (Hblank : float_of_str "" = None) by reflexivity.
  unfold to_int, to_int_or_none. cbv zeta.
  split; [intros ->; auto|].
  split.
  { intros s -> Hs. simpl. rewrite Hs. unfold int_of_str. rewrite Hs. auto. }
  split.
  { destruct (is_none x); [auto|]. destruct (String.eqb (strip (str x)) ""); [auto|].
    destruct (float_of_str (strip (str x)) ≫= int_of_float); simpl; eauto. }
  split.
  { destruct (is_none x); [auto|]. destruct (int_of x); simpl; eauto. }
  split.
  { intros ->. destruct (is_none x), (String.eqb (strip (str x)) ""); reflexivity. }
  split.
  { intros ->. destruct (is_none x); reflexivity. }
  split.
  { intros negative m e -> Hf.
    destruct (String.eqb_spec (strip (str x)) "") as [Hs|_].
    - rewrite Hs, Hblank in Hf. discriminate.
    - rewrite Hf.
      change (Some (S754_finite negative m e) ≫= int_of_float)
        with (int_of_float (S754_finite negative m e)).
      rewrite int_of_float_truncates. reflexivity. }
  split.
  { intros negative -> Hf.
    destruct (String.eqb_spec (strip (str x)) "") as [Hs|_].
    - rewrite Hs, Hblank in Hf. discriminate.
    - rewrite Hf. reflexivity. }
  split; [destruct x; reflexivity|].
  split; [intros n ->; reflexivity|].
  split.
  { intros negative m e ->.
    change (int_of (PFloat (S754_finite negative m e)))
      with (int_of_float (S754_finite negative m e)).
    rewrite int_of_float_truncates. reflexivity. }
  split.
  { intros s -> Hin. simpl. rewrite (int_of_str_point s Hin). reflexivity. }
  repeat split; reflexivity.
Qed.

End Conversions.
End Conversions.

(** ** More on the cleaner *)
Module Normalizer.
Import Py PyFacts DictFacts Startup Pipeline Cleaner CleanerFacts.

Section Normalizer.
Context `{!Builtins}.

(** *** The headers behind the keys of [r] *)

Lemma fold_dict_set_get {K V} `{EqDecision K} (pairs : list (K * V)) (d : dict K V) k v :
  dict_get (fold_left (fun d kv => dict_set d (fst kv) (snd kv)) pairs d) k = Some v ->
  In (k, v) pairs \/ dict_get d k = Some v.
Proof.
  revert d. induction pairs as [|[k0 v0] pairs IH]; intros d; simpl; [auto|].
  intros Hg. destruct (IH _ Hg) as [Hin|Hd]; [auto|].
  rewrite dict_get_set in Hd. simpl in Hd.
  destruct (decide (k0 = k)) as [->|]; [|auto].
  injection Hd as ->. auto.
Qed.

Lemma header_mapping_norm fieldnames h k :
  dict_get (header_mapping fieldnames) h = Some k -> In h fieldnames /\ k = norm h.
Proof.
  unfold header_mapping, dict_of. intros Hg.
  apply fold_dict_set_get in Hg as [Hin|Hd]; [|discriminate].
  apply in_map_iff in Hin as (c & [= <- <-] & Hc). auto.
Qed.

Lemma rename_keys_keys mapping row r k :
  rename_keys mapping row = Ok r -> In k (dict_keys r) ->
  exists h, dict_get mapping h = Some k.
Proof.
  unfold rename_keys.
  assert (H0 : forall k, In k (dict_keys ([] : dict string pyval)) ->
                 exists h, dict_get mapping h = Some k) by (simpl; tauto).
  revert H0. generalize ([] : dict string pyval). revert r k.
  induction (named row) as [|[h v] d IH]; intros r k r0 Hr0; simpl.
  - intros [= <-]. apply Hr0.
  - destruct (dict_get mapping h) as [k'|] eqn:Hh; simpl.
    + apply IH. intros k0 [->|Hin]%dict_keys_set; eauto.
    + intros Hf. exfalso. clear -Hf. induction d as [|kv d IHd]; simpl in Hf; [discriminate|].
      apply IHd, Hf.
Qed.

(** A key of [r] is the normalised name of a header. *)
Lemma renamed_keys fieldnames line k :
  In k (dict_keys (renamed fieldnames line)) -> exists h, In h fieldnames /\ norm h = k.
Proof.
  intros Hk. destruct (rename_keys_renamed fieldnames line) as [Hr _].
  destruct (rename_keys_keys _ _ _ _ Hr Hk) as [h Hh].
  apply header_mapping_norm in Hh as [Hin ->]. eauto.
Qed.

Lemma get_without_header fieldnames line k :
  (forall h, In h fieldnames -> norm h <> k) -> get (renamed fieldnames line) k = PNone.
Proof.
  intros Hno. unfold get.
  destruct (dict_get (renamed fieldnames line) k) as [v|] eqn:Hg; [|reflexivity].
  apply dict_get_Some_keys, renamed_keys in Hg as (h & Hin & Hn).
  exfalso. apply (Hno h Hin Hn).
Qed.

(** X11. A raw file without a column for the station code, or without
    one for the date under either spelling, yields no record: [main]
    fails with [RuntimeError] whatever the lines hold. *)
Theorem missing_column_is_fatal (header : list string) (lines : list (list string)) :
  (forall h, In h header -> norm h <> "identifiant_station")
  \/ (forall h, In h header ->
        norm h <> "actualisation_de_la_donnée" /\ norm h <> "actualisation_de_la_donnee") ->
  Cleaner.main (header :: lines)
  = Raise (RuntimeError "Aucune ligne nettoyée (vérifie les noms de colonnes / parsing).").
Proof.
  intros Hno. unfold Cleaner.main. simpl. rewrite clean_rows_DictReader.
  assert (Hnone : forall line, clean (renamed header line) = None).
  { intros line. unfold clean. destruct Hno as [Hid|Hdate].
    - rewrite (get_without_header header line "identifiant_station" Hid). reflexivity.
    - rewrite (get_without_header header line "actualisation_de_la_donnée"),
              (get_without_header header line "actualisation_de_la_donnee")
        by (intros h Hh; apply (Hdate h Hh)).
      simpl. rewrite orb_true_r. reflexivity. }
  induction (List.filter _ lines) as [|line l IH]; simpl; [reflexivity|].
  rewrite Hnone. exact IH.
Qed.

(** *** The kinds of the fields *)

Lemma to_int_kind x : int_or_null (to_int x).
Proof.
  unfold to_int. destruct (is_none x); [exact I|]. cbv zeta.
  destruct (String.eqb (strip (str x)) ""); [exact I|].
  destruct (float_of_str (strip (str x)) ≫= int_of_float); exact I.
Qed.

Lemma to_bool01_fr_kind x : tri_state (to_bool01_fr x).
Proof.
  unfold to_bool01_fr, tri_state. destruct (is_none x); [auto|]. cbv zeta.
  destruct (String.eqb _ ""); [auto|].
  destruct (existsb _ _); [auto|]. destruct (existsb _ _); auto.
Qed.

Lemma clean_kinds r out :
  stripped_cells r -> clean r = Some out ->
  is_stripped (get out "name") /\ tri_state (get out "is_installed")
  /\ int_or_null (get out "capacity") /\ int_or_null (get out "numdocksavailable")
  /\ int_or_null (get out "numbikesavailable") /\ int_or_null (get out "mechanical")
  /\ int_or_null (get out "ebike") /\ tri_state (get out "is_returning")
  /\ is_stripped (get out "commune") /\ is_stripped (get out "code_insee")
  /\ is_stripped (get out "geo").
Proof.
  intros Hr. unfold clean. destruct (_ || _); [discriminate|]. intros [= <-].
  change (get _ "name") with (get r "nom_station").
  repeat match goal with
  | |- _ /\ _ => split
  | |- is_stripped (get r _) => apply get_stripped, Hr
  | |- is_stripped _ => apply py_or_stripped; apply get_stripped, Hr
  | |- int_or_null _ => apply to_int_kind
  | |- tri_state _ => apply to_bool01_fr_kind
  end.
Qed.

Lemma jsonl_clean raw o out :
  Cleaner.main raw = Ok o -> In out (jsonl o) ->
  exists r, stripped_cells r /\ clean r = Some out.
Proof.
  intros Hmain Hin. destruct (main_jsonl raw o Hmain) as (fieldnames & lines & Hj).
  rewrite Hj in Hin. clear Hj. induction lines as [|line lines IH]; simpl in Hin; [tauto|].
  destruct (clean (renamed fieldnames line)) as [out'|] eqn:Hc; [|auto].
  destruct Hin as [<-|Hin]; [|auto].
  exists (renamed fieldnames line). split; [apply rename_keys_renamed|exact Hc].
Qed.

(** X12. In every record that [main] writes, the two states are 0, 1
    or null, the five counts are integers or null, and the name, the
    commune, the INSEE code and the position are null or texts without
    white space around them. *)
Theorem record_kinds (raw : list (list string)) (o : Output) (out : dict string pyval) :
  Cleaner.main raw = Ok o -> In out (jsonl o) ->
  is_stripped (get out "name") /\ tri_state (get out "is_installed")
  /\ int_or_null (get out "capacity") /\ int_or_null (get out "numdocksavailable")
  /\ int_or_null (get out "numbikesavailable") /\ int_or_null (get out "mechanical")
  /\ int_or_null (get out "ebike") /\ tri_state (get out "is_returning")
  /\ is_stripped (get out "commune") /\ is_stripped (get out "code_insee")
  /\ is_stripped (get out "geo").
Proof.
  intros Hmain Hin. destruct (jsonl_clean raw o out Hmain Hin) as (r & Hr & Hc).
  exact (clean_kinds r out Hr Hc).
Qed.

(** *** Headers with the same normalised name *)

Lemma dict_set_fresh {K V} `{EqDecision K} (d : dict K V) k v :
  ~ In k (dict_keys d) -> dict_set d k v = d ++ [(k, v)].
Proof.
  induction d as [|[k0 v0] d IH]; simpl; [reflexivity|]. intros Hn.
  destruct (decide (k0 = k)) as [->|]; [tauto|]. rewrite IH by tauto. reflexivity.
Qed.

Lemma dict_of_distinct {K V} `{EqDecision K} (pairs : list (K * V)) :
  List.NoDup (map fst pairs) -> dict_of pairs = pairs.
Proof.
  unfold dict_of.
  assert (Hgen : forall d, List.NoDup (map fst (d ++ pairs)) ->
            fold_left (fun d kv => dict_set d (fst kv) (snd kv)) pairs d = d ++ pairs).
  { induction pairs as [|[k v] pairs IH]; intros d Hnd; simpl.
    - rewrite app_nil_r. reflexivity.
    - rewrite dict_set_fresh.
      + rewrite IH; rewrite <- app_assoc; [reflexivity|exact Hnd].
      + rewrite map_app in Hnd. simpl in Hnd. apply NoDup_remove_2 in Hnd.
        intros Hin. apply Hnd. apply in_or_app. left. exact Hin. }
  intros Hnd. apply (Hgen []). exact Hnd.
Qed.

Lemma combine_fst {A B} (l : list A) (l' : list B) :
  (length l <= length l')%nat -> map fst (combine l l') = l.
Proof.
  revert l'. induction l as [|a l IH]; intros [|b l']; simpl; intros Hl;
    try reflexivity; try lia.
  rewrite IH by lia. reflexivity.
Qed.

Lemma rename_keys_last (fieldnames : list string) (k : string) (pairs : list (string * string)) :
  (forall hc, In hc pairs -> In (fst hc) fieldnames) ->
  forall r0, exists r,
    fold_left
      (fun acc kv =>
         r ← acc;
         match dict_get (header_mapping fieldnames) (fst kv) with
         | None => Raise (KeyError (fst kv))
         | Some k =>
             Ok (dict_set r k (match snd kv with PStr v => PStr (strip v) | v => v end))
         end)
      (map (fun hc => (fst hc, PStr (snd hc))) pairs) (Ok r0) = Ok r
    /\ dict_get r k =
       match last (List.filter (fun hc => bool_decide (norm (fst hc) = k)) pairs) with
       | Some hc => Some (PStr (strip (snd hc)))
       | None => dict_get r0 k
       end.
Proof.
  induction pairs as [|[h c] pairs IH]; intros Hin r0; simpl.
  - exists r0. auto.
  - destruct (header_mapping_get fieldnames h) as [k' Hk'];
      [apply (Hin (h, c)); left; reflexivity|].
    rewrite Hk'. apply header_mapping_norm in Hk' as [_ ->].
    destruct (IH (fun hc Hhc => Hin hc (or_intror Hhc))
                 (dict_set r0 (norm h) (PStr (strip c)))) as (r & Hr & Hget).
    exists r. split; [exact Hr|]. rewrite Hget, dict_get_set.
    destruct (decide (norm h = k)) as [Heq|Hne].
    + rewrite bool_decide_eq_true_2 by exact Heq. rewrite last_cons.
      destruct (last _); reflexivity.
    + rewrite bool_decide_eq_false_2 by exact Hne. reflexivity.
Qed.

(** X16. When the headers of the file are distinct texts and several
    of them have the same normalised name, the value kept under that
    name is the cell of the last such column; a name that no header
    gives has no value. *)
Theorem last_column_wins (fieldnames line : list string) (k : string) :
  List.NoDup fieldnames -> (length fieldnames <= length line)%nat ->
  get (renamed fieldnames line) k =
  match last (List.filter (fun hc => bool_decide (norm (fst hc) = k))
                          (combine fieldnames line)) with
  | Some hc => PStr (strip (snd hc))
  | None => PNone
  end.
Proof.
  intros Hnd Hlen.
  assert (Hpairs : combine fieldnames (map PStr line)
                   = map (fun hc => (fst hc, PStr (snd hc))) (combine fieldnames line)).
  { clear. revert line. induction fieldnames as [|h f IH]; intros [|c line]; simpl;
      try reflexivity. rewrite IH. reflexivity. }
  assert (Hnamed : named (DictReader_next fieldnames line)
                   = map (fun hc => (fst hc, PStr (snd hc))) (combine fieldnames line)).
  { unfold DictReader_next. cbv zeta.
    replace (length line <? length fieldnames)%nat with false
      by (symmetry; apply Nat.ltb_ge; exact Hlen).
    rewrite dict_of_distinct.
    - rewrite Hpairs. destruct (_ <? _)%nat; reflexivity.
    - rewrite combine_fst by (rewrite List.length_map; exact Hlen). exact Hnd. }
  destruct (rename_keys_last fieldnames k (combine fieldnames line)) with (r0 := @nil (string * pyval))
    as (r & Hr & Hget).
  { intros [h c] Hin. simpl. eapply in_combine_l, Hin. }
  unfold renamed, rename_keys. rewrite Hnamed.
  match goal with
  | |- get (match ?run with Ok _ => _ | Raise _ => _ end) _ = _ =>
      replace run with (Ok r) by (symmetry; exact Hr)
  end.
  unfold get. rewrite Hget.
  destruct (last _); reflexivity.
Qed.

(** *** White space around the cells *)

Lemma dict_set_cell (d : dict string pyval) k v (g : pyval -> pyval) :
  map (fun kv => (fst kv, g (snd kv))) (dict_set d k v)
  = dict_set (map (fun kv => (fst kv, g (snd kv))) d) k (g v).
Proof.
  induction d as [|[k' v'] d IH]; simpl; [reflexivity|].
  destruct (decide (k' = k)); simpl; [reflexivity|]. rewrite IH. reflexivity.
Qed.

Lemma combine_cells (fieldnames line : list string) :
  combine fieldnames (map PStr (map strip line))
  = map (fun kv => (fst kv, match snd kv with PStr v => PStr (strip v) | v => v end))
        (combine fieldnames (map PStr line)).
Proof.
  revert line. induction fieldnames as [|h f IH]; intros [|c line]; simpl; try reflexivity.
  rewrite IH. reflexivity.
Qed.

Lemma DictReader_next_cells_stripped fieldnames line :
  named (DictReader_next fieldnames (map strip line))
  = map (fun kv => (fst kv, match snd kv with PStr v => PStr (strip v) | v => v end))
        (named (DictReader_next fieldnames line)).
Proof.
  set (g := fun v => match v with
                     | PStr s => PStr (strip s)
                     | PNone => PNone | PBool b => PBool b
                     | PInt n => PInt n | PFloat f => PFloat f
                     end).
  assert (Hof : forall pairs d,
            fold_left (fun d kv => dict_set d (fst kv) (snd kv))
                      (map (fun kv : string * pyval => (fst kv, g (snd kv))) pairs)
                      (map (fun kv => (fst kv, g (snd kv))) d)
            = map (fun kv => (fst kv, g (snd kv)))
                  (fold_left (fun d kv => dict_set d (fst kv) (snd kv)) pairs d)).
  { induction pairs as [|[k v] pairs IH]; intros d; simpl; [reflexivity|].
    rewrite <- dict_set_cell. apply IH. }
  assert (Hrest : forall keys (d : dict string pyval),
            fold_left (fun d key => dict_set d key PNone) keys
                      (map (fun kv => (fst kv, g (snd kv))) d)
            = map (fun kv => (fst kv, g (snd kv)))
                  (fold_left (fun d key => dict_set d key PNone) keys d)).
  { induction keys as [|k keys IH]; intros d; simpl; [reflexivity|].
    rewrite <- IH, (dict_set_cell d k PNone g). reflexivity. }
  pose proof (fun pairs => Hof pairs []) as Hof0.
  subst g. cbv beta in Hof0, Hrest. simpl in Hof0.
  unfold DictReader_next. rewrite List.length_map, combine_cells.
  unfold dict_of. cbv zeta. rewrite Hof0.
  destruct (_ <? _)%nat; simpl; [reflexivity|].
  destruct (_ <? _)%nat; simpl; [|reflexivity].
  apply Hrest.
Qed.

Lemma renamed_cells_stripped fieldnames line :
  renamed fieldnames (map strip line) = renamed fieldnames line.
Proof.
  unfold renamed, rename_keys. rewrite DictReader_next_cells_stripped.
  generalize (named (DictReader_next fieldnames line)).
  generalize (Ok [] : result (dict string pyval)).
  intros acc d. revert acc.
  induction d as [|[k v] d IH]; intros acc; simpl; [reflexivity|].
  rewrite IH. destruct v; simpl; rewrite ?strip_idemp; reflexivity.
Qed.

(** X13. White space around the cells of the data lines is not seen:
    [main] gives the same files, or the same failure, for a raw file
    and for the same file with every cell of its data lines stripped. *)
Theorem cell_padding_ignored (header : list string) (lines : list (list string)) :
  Cleaner.main (header :: map (map strip) lines) = Cleaner.main (header :: lines).
Proof.
  assert (Hm : omap (fun line => clean (renamed header line))
                 (List.filter (fun row => negb (Nat.eqb (length row) 0))
                              (map (map strip) lines))
               = omap (fun line => clean (renamed header line))
                   (List.filter (fun row => negb (Nat.eqb (length row) 0)) lines)).
  { induction lines as [|line lines IH]; simpl; [reflexivity|].
    rewrite List.length_map. destruct (negb _); simpl; [|exact IH].
    rewrite renamed_cells_stripped.
    destruct (clean (renamed header line)); [f_equal|]; exact IH. }
  unfold Cleaner.main. cbn [tl]. rewrite !clean_rows_DictReader, Hm. reflexivity.
Qed.

End Normalizer.
End Normalizer.

(** ** The admission of a line *)
Module Admission.
Import Py PyFacts DictFacts Cleaner CleanerFacts Columns.






Section Admission.
Context `{!Builtins}.



End Admission.
End Admission.

(** ** From the cleaner to the consumer *)
Module Chain.
Import Py PyFacts DictFacts Startup Pipeline Cleaner CleanerFacts Consumer ConsumerFacts.

Lemma msg_get_message_of (out : dict string pyval) (key : string) :
  msg_get (message_of out) key = get out key.
Proof.
  unfold msg_get, message_of, get. f_equal.
  induction out as [|[k v] out IH]; simpl; [apply lookup_empty|].
  destruct (decide (k = key)) as [->|Hne];
    [apply lookup_insert_eq|rewrite lookup_insert_ne by exact Hne; exact IH].
Qed.

Section Chain.
Context `{!Builtins, !Datetime}.

(** The dictionary [out] with the kind of each of its values. *)
Lemma clean_shape r out :
  stripped_cells r -> clean r = Some out ->
  exists sc name ins cap docks bikes mech eb ret dd com insee geo,
    out = [ ("station_code", PStr sc); ("name", name); ("is_installed", ins);
            ("capacity", cap); ("numdocksavailable", docks);
            ("numbikesavailable", bikes); ("mechanical", mech); ("ebike", eb);
            ("is_returning", ret); ("due_date", PStr dd); ("commune", com);
            ("code_insee", insee); ("geo", geo) ]
    /\ (sc <> "" /\ strip sc = sc) /\ (dd <> "" /\ strip dd = dd)
    /\ is_stripped name /\ tri_state ins /\ int_or_null cap /\ int_or_null docks
    /\ int_or_null bikes /\ int_or_null mech /\ int_or_null eb /\ tri_state ret
    /\ is_stripped com /\ is_stripped insee /\ is_stripped geo.
Proof.
  intros Hr Hc.
  destruct (clean_required r out Hr Hc) as [(sc & Hsc & Hsc0) (dd & Hdd & Hdd0)].
  destruct (Normalizer.clean_kinds r out Hr Hc) as (? & ? & ? & ? & ? & ? & ? & ? & ? & ? & ?).
  revert Hc Hsc Hdd. unfold clean. destruct (_ || _); [discriminate|].
  intros [= <-]. intros [= Hsc] [= Hdd].
  do 13 eexists. split; [reflexivity|].
  rewrite Hsc, Hdd.
  repeat split; try assumption.
  - rewrite <- Hsc. apply strip_idemp.
  - rewrite <- Hdd. apply strip_idemp.
Qed.

Lemma zero_to_null_resolved v :
  int_or_null v -> to_int_or_none (py_or v PNone) = zero_to_null v.
Proof. destruct v as [| | [|p|p] | |]; simpl; tauto || reflexivity. Qed.

Lemma int_or_null_kept v : int_or_null v -> to_int_or_none v = v.
Proof. destruct v; simpl; tauto || reflexivity. Qed.

Lemma tri_state_kept v : tri_state v -> to_int_or_none v = v.
Proof. intros [->|[->| ->]]; reflexivity. Qed.

Lemma text_resolved v :
  is_stripped v -> strip (str (py_or v (PStr ""))) = text_of v.
Proof.
  destruct v as [| | | |s]; simpl; try tauto. intros Hs.
  unfold py_or. simpl. destruct (String.eqb_spec s "") as [->|]; simpl; [reflexivity|exact Hs].
Qed.

(** X14. A record written by [main] of the cleaner and read back as a
    message is resolved by [insert_row] to the station code and the date
    text of the record, and to its INSEE code and position ([""] for a
    null); when the message is accepted, the commune, the capacity and
    the two states are stored as written, an empty name is stored as
    [NULL], and so is a count of zero docks or bikes. *)
Theorem record_as_message (raw : list (list string)) (o : Output) (out : dict string pyval) :
  Cleaner.main raw = Ok o -> In out (jsonl o) ->
  let msg := message_of out in
  (station_code_text msg = text_of (get out "station_code") /\ station_code_text msg <> "")
  /\ due_date_value msg = get out "due_date"
  /\ code_insee_text msg = text_of (get out "code_insee")
  /\ geo_text msg = text_of (get out "geo")
  /\ forall row, row_values msg = Ok row ->
       station_name row = py_or (get out "name") PNone
       /\ commune row = get out "commune"
       /\ capacity row = get out "capacity"
       /\ is_installed row = get out "is_installed"
       /\ is_returning row = get out "is_returning"
       /\ docks_available row = zero_to_null (get out "numdocksavailable")
       /\ bikes_available row = zero_to_null (get out "numbikesavailable")
       /\ bikes_mechanical row = zero_to_null (get out "mechanical")
       /\ bikes_ebike row = zero_to_null (get out "ebike").
Proof.
  intros Hmain Hin msg.
  destruct (Normalizer.jsonl_clean raw o out Hmain Hin) as (r & Hr & Hc).
  destruct (clean_shape r out Hr Hc)
    as (sc & name & ins & cap & docks & bikes & mech & eb & ret & dd & com & insee & geo
        & Hout & [Hsc0 Hsc] & [Hdd0 Hdd] & Hname & Hins & Hcap & Hdocks & Hbikes
        & Hmech & Heb & Hret & Hcom & Hinsee & Hgeo).
  assert (Htext : forall s, s <> "" -> truthy (PStr s) = true).
  { intros s Hs. simpl. destruct (String.eqb_spec s ""); [contradiction|reflexivity]. }
  unfold station_code_text, due_date_value, code_insee_text, geo_text.
  subst msg. setoid_rewrite row_values_cases.
  unfold station_code_text, due_date_value, code_insee_text, geo_text.
  rewrite !msg_get_message_of.
  subst out.
  repeat match goal with
  | |- context [get ?d ?k] =>
      let v := eval vm_compute in (get d k) in change (get d k) with v
  end.
  assert (Hsc3 : py_or (py_or (py_or (PStr sc) PNone) PNone) (PStr "") = PStr sc)
    by (unfold py_or; rewrite !(Htext sc Hsc0); reflexivity).
  assert (Hdd3 : py_or (py_or (PStr dd) PNone) PNone = PStr dd)
    by (unfold py_or; rewrite !(Htext dd Hdd0); reflexivity).
  rewrite !Hsc3, !Hdd3. change (str (PStr sc)) with sc. rewrite !Hsc.
  split; [split; [reflexivity|exact Hsc0]|].
  split; [reflexivity|].
  assert (Hi : strip (str (py_or (py_or (py_or insee PNone) PNone) (PStr ""))) = text_of insee).
  { rewrite <- (text_resolved insee Hinsee). unfold py_or.
    destruct (truthy insee) eqn:Ht; simpl; rewrite ?Ht; reflexivity. }
  rewrite Hi, (text_resolved geo Hgeo).
  split; [reflexivity|]. split; [reflexivity|].
  intros row.
  destruct (String.eqb sc ""); [discriminate|].
  destruct (parse_due_date _); [|discriminate].
  destruct (String.eqb (text_of insee) ""); [discriminate|].
  destruct (String.eqb (text_of geo) ""); [discriminate|].
  intros [= <-]. simpl.
  rewrite !zero_to_null_resolved, !int_or_null_kept, !tri_state_kept by assumption.
  repeat split; reflexivity.
Qed.

End Chain.
End Chain.

(** ** The raw file *)
Module Fetch.
Import Py Cleaner Download.

Section Fetch.
Context `{!Urllib, !Builtins, !Csv}.

(** X15. A run of the cleaner that ends well retrieves at most one
    file, from [RAW_URL], and only when no raw file was there; after it
    every further run, whatever [RAW_URL] is then, retrieves nothing
    and writes the same files. *)
Theorem rerun_offline (RAW_URL : option string) (d d' : Disk) (o : Output) :
  Download.main RAW_URL d = (d', Returns o) ->
  (d' = d
   \/ exists url, RAW_URL = Some url /\ url <> "" /\ cached d = false
                  /\ retrieved d' = retrieved d ++ [url])
  /\ forall RAW_URL', Download.main RAW_URL' d' = (d', Returns o).
Proof.
  unfold Download.main, download_if_needed.
  destruct (cached d) eqn:Hc.
  - intros [= <- Hm]. split; [auto|]. intros url'. rewrite Hc, Hm. reflexivity.
  - destruct RAW_URL as [url|]; simpl; [|discriminate].
    destruct (String.eqb_spec url ""); simpl; [discriminate|].
    destruct (urlretrieve url) as [content|reason remains]; [|discriminate].
    simpl. intros [= <- Hm]. split; [right; exists url; auto|].
    intros url'. unfold cached. simpl.
    destruct (String.eqb_spec content "") as [->|]; simpl.
    + rewrite reader_empty in Hm. discriminate.
    + rewrite Hm. reflexivity.
Qed.

End Fetch.
End Fetch.

(** ** The offset committed after a record that failed *)
Module Checkpoint.
Import Py Consumer Reference Examples Startup Cases.

(** C1. The code against the claim, and against the comment of the
    loop ([on ne commit PAS, donc le message pourra être relu]): the
    commit is that of the position of the consumer, so the offset of a
    record that failed is passed as soon as a later record is stored.
    The record at offset 4 is one that [insert_row] maps to a row; the
    store refuses it, and accepts the record at offset 5. After the
    two turns the row of the first is not in the table and the offset
    committed is 6: a consumer that starts again reads from there, and
    the record at offset 4 is not read again. *)
Theorem failed_record_passed_over :
  let w := loop empty_world [turn 4 payload_mairie false; turn 5 payload_gare true] in
  is_Some (stored_row (turn 4 payload_mairie true))
  /\ stored_row (turn 4 payload_mairie false) = None
  /\ committed (loop empty_world [turn 4 payload_mairie false]) = None
  /\ table w = [row_gare]
  /\ rows_with ("102", instant 10 5) (table w) = []
  /\ committed w = Some 6
  /\ trace w = [ Printed (Erreur 4 DatabaseError payload_mairie);
                 Stored 5; Committed 6; Printed (Insere (PStr "101") 5) ].
Proof. vm_compute. repeat split; eauto. Qed.

End Checkpoint.

(** ** The properties above on the examples *)
Module CaseFacts.
Import Py Cleaner Consumer Reference Examples Startup Pipeline Cases.

(** C3 on a negative decimal, a float, an integer and a word. *)
Lemma int_conversions_witness :
  to_int (PStr "-12.7") = PInt (-12)
  /\ to_int_or_none (PStr "-12.7") = PNone
  /\ to_int_or_none (PFloat (S754_finite true 7 (-1))) = PInt (-3)
  /\ to_int_or_none (PInt 0) = PInt 0
  /\ to_int (PStr "abc") = PNone.
Proof.
  destruct (Conversions.int_conversions (PStr "-12.7"))
    as (_ & _ & _ & _ & _ & _ & Hfloat & _ & _ & _ & _ & Hpoint & _).
  destruct (Conversions.int_conversions (PFloat (S754_finite true 7 (-1))))
    as (_ & _ & _ & _ & _ & _ & _ & _ & _ & _ & Htrunc & _).
  destruct (Conversions.int_conversions (PInt 0))
    as (_ & _ & _ & _ & _ & _ & _ & _ & _ & Hint & _).
  destruct (Conversions.int_conversions (PStr "abc")) as (_ & _ & _ & _ & Hnone & _).
  split.
  { let v := eval vm_compute in (float_of_str (strip (str (PStr "-12.7")))) in
    match v with
    | Some (S754_finite ?negative ?m ?e) =>
        rewrite (Hfloat negative m e eq_refl ltac:(vm_compute; reflexivity))
    end.
    vm_compute. reflexivity. }
  split; [apply (Hpoint "-12.7" eq_refl); vm_compute; tauto|].
  split; [rewrite (Htrunc true 7%positive (-1) eq_refl); vm_compute; reflexivity|].
  split; [apply (Hint 0 eq_refl)|].
  apply Hnone. vm_compute. reflexivity.
Defined.


Lemma run_last_write_wins_witness :
  rows_with ("101", instant 10 0)
            (table (loop empty_world [turn 0 payload_gare true; turn 1 payload_mairie true;
                                      turn 2 payload_gare true]))
  = [row_gare].
Proof.
  etransitivity; [apply Run.run_last_write_wins; constructor|].
  vm_compute. reflexivity.
Defined.

Lemma replay_changes_nothing_witness :
  table (loop (loop empty_world [turn 0 payload_gare true; turn 1 payload_no_geo true;
                                 turn 2 payload_mairie true])
              [turn 0 payload_gare true; turn 1 payload_no_geo false;
               turn 2 payload_mairie true])
  = table (loop empty_world [turn 0 payload_gare true; turn 1 payload_no_geo true;
                             turn 2 payload_mairie true]).
Proof.
  apply Run.replay_changes_nothing; [constructor|vm_compute; reflexivity].
Defined.

Lemma different_keys_commute_witness :
  Permutation
    (table (loop empty_world [turn 0 payload_gare true; turn 1 payload_mairie true]))
    (table (loop empty_world [turn 1 payload_mairie true; turn 0 payload_gare true])).
Proof.
  eapply Run.different_keys_commute.
  - constructor.
  - vm_compute. reflexivity.
  - vm_compute. reflexivity.
  - vm_compute. discriminate.
Defined.

Lemma table_invariant_witness :
  pk_unique (table (loop empty_world [turn 0 payload_gare true; turn 1 payload_no_geo true]))
  /\ Forall well_formed
       (table (loop empty_world [turn 0 payload_gare true; turn 1 payload_no_geo true])).
Proof. apply Run.table_invariant; constructor. Defined.

Lemma main_keeps_rows_witness :
  exists w events,
    Startup.main slow_start (Some [row_gare]) None [turn 0 payload_mairie true] = (Ok w, events)
    /\ In row_gare (table w) /\ (1 <= length (table w))%nat.
Proof.
  let v := eval vm_compute in
    (Startup.main slow_start (Some [row_gare]) None [turn 0 payload_mairie true]) in
  match v with
  | (Ok ?w, ?events) =>
      assert (Hm : Startup.main slow_start (Some [row_gare]) None [turn 0 payload_mairie true]
                   = (Ok w, events)) by (vm_compute; reflexivity);
      exists w, events
  end.
  assert (Hu : pk_unique (ensure_table (Some [row_gare]))) by (repeat constructor; simpl; tauto).
  destruct (Run.main_keeps_rows _ _ _ _ _ _ Hu Hm) as [Hkeep Hlen].
  split; [exact Hm|]. split; [|exact Hlen].
  apply (Hkeep row_gare); [left; reflexivity|vm_compute; reflexivity].
Defined.

Lemma connect_retry_witness :
  connect_mysql_with_retry slow_start 30 2
  = (Ok 2%nat, [ Echec 1 30 "Can't connect to MySQL server"; Slept 2;
                 Echec 2 30 "Can't connect to MySQL server"; Slept 2 ])
  /\ slept (snd (connect_mysql_with_retry slow_start 30 2)) = 4.
Proof.
  split; [reflexivity|].
  pose proof (Run.connect_retry slow_start 30 2) as Hc.
  destruct (connect_mysql_with_retry slow_start 30 2) as [[k|e] events] eqn:Hr.
  - injection Hr as <- <-. simpl. apply Hc. lia.
  - discriminate Hr.
Defined.

Lemma unread_members_ignored_witness : row_values msg_gare = row_values msg_gare_noted.
Proof.
  apply Mapping.unread_members_ignored. unfold read_keys.
  repeat (constructor; [vm_compute; reflexivity|]). constructor.
Defined.

Lemma missing_column_is_fatal_witness :
  Cleaner.main [header_without_code; ["Gare"; "20"; "2026-01-22 10:00:00"]]
  = Raise (RuntimeError "Aucune ligne nettoyée (vérifie les noms de colonnes / parsing).").
Proof.
  apply Normalizer.missing_column_is_fatal. left.
  intros h [<-|[<-|[<-|[]]]]; vm_compute; discriminate.
Defined.

Lemma last_column_wins_witness :
  get (renamed header_two_codes ["101"; " 202 "; "Gare"]) "identifiant_station" = PStr "202".
Proof.
  etransitivity; [apply Normalizer.last_column_wins|vm_compute; reflexivity].
  - repeat constructor; simpl; intuition discriminate.
  - simpl. lia.
Defined.

Lemma record_kinds_witness :
  exists o out,
    Cleaner.main scenario = Ok o /\ In out (jsonl o)
    /\ get out "is_installed" = PInt 1 /\ tri_state (get out "is_installed")
    /\ int_or_null (get out "capacity").
Proof.
  let v := eval vm_compute in (Cleaner.main scenario) in
  match v with
  | Ok ?o =>
      assert (Hm : Cleaner.main scenario = Ok o) by (vm_compute; reflexivity);
      exists o
  end.
  eexists. split; [exact Hm|]. split; [left; reflexivity|].
  split; [reflexivity|].
  match goal with
  | |- tri_state (get ?out _) /\ _ =>
      pose proof (Normalizer.record_kinds scenario _ out Hm (or_introl eq_refl)) as Hk
  end.
  split; [apply Hk|apply Hk].
Defined.

Lemma record_as_message_witness :
  exists o out,
    Cleaner.main scenario = Ok o /\ In out (jsonl o)
    /\ station_code_text (message_of out) = "101"
    /\ code_insee_text (message_of out) = "".
Proof.
  let v := eval vm_compute in (Cleaner.main scenario) in
  match v with
  | Ok ?o =>
      assert (Hm : Cleaner.main scenario = Ok o) by (vm_compute; reflexivity);
      exists o
  end.
  eexists. split; [exact Hm|]. split; [left; reflexivity|].
  match goal with
  | |- station_code_text (message_of ?out) = _ /\ _ =>
      destruct (Chain.record_as_message scenario _ out Hm (or_introl eq_refl))
        as ([Hsc _] & _ & Hinsee & _)
  end.
  split; [rewrite Hsc; reflexivity|rewrite Hinsee; reflexivity].
Defined.

Lemma rerun_offline_witness :
  exists d' o,
    @Download.main Download.scenario_server _ Download.plain_csv (Some "https://example.org/velib.csv")
                   Download.empty_disk = (d', Download.Returns o)
    /\ Download.retrieved d' = ["https://example.org/velib.csv"]
    /\ @Download.main Download.scenario_server _ Download.plain_csv None d' = (d', Download.Returns o).
Proof.
  let v := eval vm_compute in
    (@Download.main Download.scenario_server _ Download.plain_csv (Some "https://example.org/velib.csv")
                    Download.empty_disk) in
  match v with
  | (?d', Download.Returns ?o) =>
      assert (Hm : @Download.main Download.scenario_server _ Download.plain_csv
                     (Some "https://example.org/velib.csv") Download.empty_disk
                   = (d', Download.Returns o)) by (vm_compute; reflexivity);
      exists d', o
  end.
  split; [exact Hm|]. split; [reflexivity|].
  apply (proj2 (@Fetch.rerun_offline Download.scenario_server _ Download.plain_csv _ _ _ _ Hm)).
Defined.

End CaseFacts.
